(** * forge-server-utils: the design-automation client

    A shallow embedding of [src/design-automation.js]
    ([DesignAutomationClient]): the two pagination helpers [_pager] and
    [_collect], the four activity-config builders and the two operations
    that submit them, [createActivity] and [updateActivity].

    The collaborators of the client (the authentication client and the
    HTTP transport of [./common]) are not part of the file.  They are
    modelled as a [Remote]: an oracle that answers every call from the
    history of the calls made so far.  The state threaded through the
    asynchronous code is that history, so every statement about which
    requests were issued, and in which order, is a statement about the
    final history. *)

From Stdlib Require Import String List Bool Arith Lia.
From stdpp Require Import base option list gmap strings.

Local Open Scope string_scope.
Local Open Scope nat_scope.
Local Open Scope list_scope.
Local Open Scope stdpp_scope.

(** ** JavaScript values the client inspects *)

(** An optional string as JavaScript has it: a missing property or an
    omitted argument reads [undefined], a caller or a JSON body may hold
    [null], and otherwise there is a string, possibly the empty one. *)
Inductive JsOpt : Type :=
| JsUndefined
| JsNull
| JsString (s : string).

(** [if (v)], [while (v)]: [undefined], [null] and the empty string are
    falsy, every other string is truthy. *)
Definition truthy (v : JsOpt) : bool :=
  match v with
  | JsString s => negb (String.eqb s EmptyString)
  | JsUndefined | JsNull => false
  end.

(** The string a truthy value interpolates to in a template literal. *)
Definition truthy_string (v : JsOpt) : option string :=
  match v with
  | JsString s => if String.eqb s EmptyString then None else Some s
  | JsUndefined | JsNull => None
  end.

(** A value was supplied when it is a string at all. *)
Definition supplied (v : JsOpt) : Prop :=
  match v with
  | JsString _ => True
  | JsUndefined | JsNull => False
  end.

(** A thrown JavaScript [Error] with its message. *)
Inductive Exn : Type :=
| Error (message : string).

(** How an awaited promise settles. *)
Inductive Outcome (A : Type) : Type :=
| Returned (a : A)
| Thrown (e : Exn).
Arguments Returned {A} a.
Arguments Thrown {A} e.

(** ** Activity configs (the JSON body of an activity) *)

(** One entry of [config.parameters]: [{ verb, description?, localName? }]. *)
Record ParameterDescriptor : Type := {
  verb : string;
  param_description : option string;
  param_localName : option string
}.

(** [{ script: script }] *)
Record Settings : Type := {
  settings_script : string
}.

(** [commandLine] is an array of strings in three builders and a plain
    string in the 3dsMax one. *)
Inductive CommandLine : Type :=
| CmdArray (lines : list string)
| CmdString (line : string).

(** The object a builder returns.  A field that the object literal or a
    later assignment never sets is absent: [cfg_id = None] is an object
    without the key [id], [cfg_id = Some JsNull] is [id: null].
    [cfg_parameters] holds the own properties of [config.parameters]. *)
Record ActivityConfig : Type := {
  cfg_id : option JsOpt;
  cfg_commandLine : CommandLine;
  cfg_parameters : gmap string ParameterDescriptor;
  cfg_description : string;
  cfg_engine : string;
  cfg_appbundles : list string;
  cfg_settings : option Settings
}.

(** Input descriptors [{ name, description }] and output descriptors
    [{ name, description, localName }] as the callers pass them. *)
Record InputDescriptor : Type := {
  in_name : string;
  in_description : JsOpt
}.

Record OutputDescriptor : Type := {
  out_name : string;
  out_description : JsOpt;
  out_localName : JsOpt
}.

(** ** The collaborators *)

(** [{ access_token }], what [auth.authenticate] resolves to. *)
Record Authentication : Type := {
  access_token : string
}.

(** Request headers, a JavaScript object used as a map. *)
Abbreviation Headers := (gmap string string).

(** The decoded body of a listing endpoint: [{ data, paginationToken? }]. *)
Record Response (Item : Type) : Type := {
  data : list Item;
  paginationToken : JsOpt
}.
Arguments data {Item} r.
Arguments paginationToken {Item} r.

(** A call that leaves the client. *)
Inductive Call : Type :=
| CallAuthenticate (scopes : list string)
| CallGet (url : string) (headers : Headers)
| CallPost (url : string) (json : option ActivityConfig) (headers : Headers).

(** The history of the calls made so far, oldest first. *)
Abbreviation Trace := (list Call).

(** The remote side: what each call settles to, given the calls before it. *)
Record Remote (Item Body : Type) : Type := {
  auth_reply : Trace -> list string -> Outcome Authentication;
  get_reply : Trace -> string -> Headers -> Outcome (Response Item);
  post_reply : Trace -> string -> option ActivityConfig -> Headers -> Outcome Body
}.
Arguments auth_reply {Item Body} r.
Arguments get_reply {Item Body} r.
Arguments post_reply {Item Body} r.

(** ** Asynchronous computations *)

(** An [async] function: it runs from a history, and either settles with
    the history it leaves or ([None]) is still looping when the fuel of a
    [while] is spent. *)
Definition Async (A : Type) : Type := Trace -> option (Outcome A * Trace).

Definition ret {A} (a : A) : Async A := fun tr => Some (Returned a, tr).

Definition throw {A} (e : Exn) : Async A := fun tr => Some (Thrown e, tr).

Definition out_of_fuel {A} : Async A := fun _ => None.

Definition bind {A B} (m : Async A) (k : A -> Async B) : Async B :=
  fun tr =>
    match m tr with
    | None => None
    | Some (Thrown e, tr') => Some (Thrown e, tr')
    | Some (Returned a, tr') => k a tr'
    end.

Notation "'await' x ':=' m 'in' k" := (bind m (fun x => k))
  (at level 10, x name, m at level 100, k at level 200).

(** Settling with the remote's answer, after recording the call. *)
Definition perform {A} (c : Call) (reply : Outcome A) : Async A :=
  fun tr => Some (reply, tr ++ [c]).

(** An already settled value, such as the result of a constructor call. *)
Definition settle {A} (o : Outcome A) : Async A :=
  fun tr => Some (o, tr).

(** ** Building the config object *)

(** [config.id = activityId] *)
Definition set_id (activityId : JsOpt) (config : ActivityConfig) : ActivityConfig :=
  {| cfg_id := Some activityId;
     cfg_commandLine := cfg_commandLine config;
     cfg_parameters := cfg_parameters config;
     cfg_description := cfg_description config;
     cfg_engine := cfg_engine config;
     cfg_appbundles := cfg_appbundles config;
     cfg_settings := cfg_settings config |}.

Definition set_commandLine (c : CommandLine) (config : ActivityConfig) : ActivityConfig :=
  {| cfg_id := cfg_id config;
     cfg_commandLine := c;
     cfg_parameters := cfg_parameters config;
     cfg_description := cfg_description config;
     cfg_engine := cfg_engine config;
     cfg_appbundles := cfg_appbundles config;
     cfg_settings := cfg_settings config |}.

Definition set_parameters (p : gmap string ParameterDescriptor) (config : ActivityConfig)
  : ActivityConfig :=
  {| cfg_id := cfg_id config;
     cfg_commandLine := cfg_commandLine config;
     cfg_parameters := p;
     cfg_description := cfg_description config;
     cfg_engine := cfg_engine config;
     cfg_appbundles := cfg_appbundles config;
     cfg_settings := cfg_settings config |}.

(** [config.settings = { script: script }] *)
Definition set_settings (script : string) (config : ActivityConfig) : ActivityConfig :=
  {| cfg_id := cfg_id config;
     cfg_commandLine := cfg_commandLine config;
     cfg_parameters := cfg_parameters config;
     cfg_description := cfg_description config;
     cfg_engine := cfg_engine config;
     cfg_appbundles := cfg_appbundles config;
     cfg_settings := Some {| settings_script := script |} |}.

(** [config.commandLine[0] += s], on the array the three builders that use
    it start from. *)
Definition append_to_line0 (s : string) (config : ActivityConfig) : ActivityConfig :=
  match cfg_commandLine config with
  | CmdArray lines => set_commandLine (CmdArray (alter (fun l => l +:+ s) 0 lines)) config
  | CmdString _ => config
  end.

(** [config.commandLine += s], on the string the 3dsMax builder starts from. *)
Definition append_to_line (s : string) (config : ActivityConfig) : ActivityConfig :=
  match cfg_commandLine config with
  | CmdString line => set_commandLine (CmdString (line +:+ s)) config
  | CmdArray _ => config
  end.

(** *** Plain objects used as maps

    [config.parameters] and, in a work item, [config.arguments] start as
    the object literal [{}] and are filled by assignments
    [object[name] = value], with names that come from the caller.  The
    map of the model holds the own properties of such an object: its
    keys are what [Object.keys] lists and what the JSON body of a
    request is written from.

    An object literal inherits from [Object.prototype], and with it the
    accessor [__proto__].  Under every other name an assignment writes an
    own property, also when the name is one of an inherited method.
    Under the name [__proto__] it runs the inherited setter instead: the
    value, an object, becomes the prototype of [object], which inherits
    the accessor again, and no own property is written. *)
Definition names_own_property (name : string) : bool :=
  negb (String.eqb name "__proto__").

(** [object[name] = value] *)
Definition assign_property {V : Type} (name : string) (value : V)
  (object : gmap string V) : gmap string V :=
  if names_own_property name then <[name := value]> object else object.

(** [object[name].field = x], written as the change [f] of the value
    [object[name]] reads.  Every such statement of the client follows an
    assignment to [object[name]].  Under [__proto__] the value read is the
    prototype that assignment installed, so the change is made to it and
    the own properties stay as they are. *)
Definition update_property {V : Type} (f : V -> V) (name : string)
  (object : gmap string V) : gmap string V :=
  if names_own_property name then alter f name object else object.

(** [config.parameters[name] = { verb: v }] *)
Definition set_parameter (name v : string) (config : ActivityConfig) : ActivityConfig :=
  set_parameters
    (assign_property name
       {| verb := v; param_description := None; param_localName := None |}
       (cfg_parameters config))
    config.

(** [config.parameters[name].description = d] *)
Definition set_parameter_description (name d : string) (config : ActivityConfig)
  : ActivityConfig :=
  set_parameters
    (update_property
       (fun p => {| verb := verb p;
                    param_description := Some d;
                    param_localName := param_localName p |})
       name (cfg_parameters config))
    config.

(** [config.parameters[name].localName = l] *)
Definition set_parameter_localName (name l : string) (config : ActivityConfig)
  : ActivityConfig :=
  set_parameters
    (update_property
       (fun p => {| verb := verb p;
                    param_description := param_description p;
                    param_localName := Some l |})
       name (cfg_parameters config))
    config.

(** The double quote character, which the 3dsMax command line puts around
    its path placeholders. *)
Definition dquote : string := String (Ascii.ascii_of_nat 34) EmptyString.

(** The body of [for (const input of inputs)], the same text in the
    Inventor, Revit and AutoCAD builders. *)
Definition add_input (config : ActivityConfig) (input : InputDescriptor) : ActivityConfig :=
  let config := append_to_line0 (" $(args[" +:+ in_name input +:+ "].path)") config in
  let config := set_parameter (in_name input) "get" config in
  match truthy_string (in_description input) with
  | Some d => set_parameter_description (in_name input) d config
  | None => config
  end.

(** The body of [for (const output of outputs)], the same text in all four
    builders. *)
Definition add_output (config : ActivityConfig) (output : OutputDescriptor) : ActivityConfig :=
  let config := set_parameter (out_name output) "put" config in
  let config :=
    match truthy_string (out_description output) with
    | Some d => set_parameter_description (out_name output) d config
    | None => config
    end in
  match truthy_string (out_localName output) with
  | Some l => set_parameter_localName (out_name output) l config
  | None => config
  end.

(** [if (inputs.length > 0) { config.commandLine[0] += ' /i'; for ... }] *)
Definition add_inputs (inputs : list InputDescriptor) (config : ActivityConfig)
  : ActivityConfig :=
  if 0 <? length inputs
  then fold_left add_input inputs (append_to_line0 " /i" config)
  else config.

Definition _inventorActivityConfig
  (activityId : JsOpt) (description ownerId bundleName bundleAlias engine : string)
  (inputs : list InputDescriptor) (outputs : list OutputDescriptor) : ActivityConfig :=
  let config :=
    {| cfg_id := None;
       cfg_commandLine :=
         CmdArray ["$(engine.path)\InventorCoreConsole.exe /al $(appbundles["
                     +:+ bundleName +:+ "].path)"];
       cfg_parameters := ∅;
       cfg_description := description;
       cfg_engine := engine;
       cfg_appbundles := [ownerId +:+ "." +:+ bundleName +:+ "+" +:+ bundleAlias];
       cfg_settings := None |} in
  let config := if truthy activityId then set_id activityId config else config in
  let config := add_inputs inputs config in
  fold_left add_output outputs config.

Definition _revitActivityConfig
  (activityId : JsOpt) (description ownerId bundleName bundleAlias engine : string)
  (inputs : list InputDescriptor) (outputs : list OutputDescriptor) : ActivityConfig :=
  let config :=
    {| cfg_id := Some activityId;
       cfg_commandLine :=
         CmdArray ["$(engine.path)\revitcoreconsole.exe /al $(appbundles["
                     +:+ bundleName +:+ "].path)"];
       cfg_parameters := ∅;
       cfg_description := description;
       cfg_engine := engine;
       cfg_appbundles := [ownerId +:+ "." +:+ bundleName +:+ "+" +:+ bundleAlias];
       cfg_settings := None |} in
  let config := add_inputs inputs config in
  fold_left add_output outputs config.

Definition _autocadActivityConfig
  (activityId : JsOpt) (description ownerId bundleName bundleAlias engine : string)
  (inputs : list InputDescriptor) (outputs : list OutputDescriptor) (script : JsOpt)
  : ActivityConfig :=
  let config :=
    {| cfg_id := Some activityId;
       cfg_commandLine :=
         CmdArray ["$(engine.path)\accoreconsole.exe /al $(appbundles["
                     +:+ bundleName +:+ "].path)"];
       cfg_parameters := ∅;
       cfg_description := description;
       cfg_engine := engine;
       cfg_appbundles := [ownerId +:+ "." +:+ bundleName +:+ "+" +:+ bundleAlias];
       cfg_settings := None |} in
  let config := add_inputs inputs config in
  let config := fold_left add_output outputs config in
  match truthy_string script with
  | Some s => append_to_line0 " /s $(settings[script].path)" (set_settings s config)
  | None => config
  end.

Definition _3dsmaxActivityConfig
  (activityId : JsOpt) (description ownerId bundleName bundleAlias engine : string)
  (inputs : list InputDescriptor) (outputs : list OutputDescriptor) (script : JsOpt)
  : Outcome ActivityConfig :=
  let config :=
    {| cfg_id := Some activityId;
       cfg_commandLine := CmdString "$(engine.path)\3dsmaxbatch.exe";
       cfg_parameters := ∅;
       cfg_description := description;
       cfg_engine := engine;
       cfg_appbundles := [ownerId +:+ "." +:+ bundleName +:+ "+" +:+ bundleAlias];
       cfg_settings := None |} in
  if 1 <? length inputs
  then Thrown (Error "3dsMax engine only supports single input file.")
  else
    let config :=
      match inputs with
      | input :: _ =>
          let config := set_parameter (in_name input) "get" config in
          let config :=
            append_to_line
              (" -sceneFile " +:+ dquote +:+ "$(args[" +:+ in_name input +:+ "].path)" +:+ dquote)
              config in
          match truthy_string (in_description input) with
          | Some d => set_parameter_description (in_name input) d config
          | None => config
          end
      | [] => config
      end in
    let config := fold_left add_output outputs config in
    Returned
      match truthy_string script with
      | Some s =>
          append_to_line (" " +:+ dquote +:+ "$(settings[script].path)" +:+ dquote)
                         (set_settings s config)
      | None => config
      end.

(** ** The client *)

Definition RootPath : string := "/da/us-east/v3".

Definition ReadScopes : list string := ["code:all"].

(** [{ 'Authorization': 'Bearer ' + authentication.access_token }] *)
Definition bearer (authentication : Authentication) : string :=
  "Bearer " +:+ access_token authentication.

(** The object [new DesignAutomationURI(engine)] builds; the client reads
    its [name] only. *)
Record DesignAutomationURI : Type := {
  uri_name : string
}.

(** Modelled from the spec: the constructor of [DesignAutomationURI] lives
    in [./common], which is not among the sources.  The spec describes an
    engine identifier as a namespace-qualified name of the shape
    vendor.Engine+version whose name segment selects the variant: the
    name is the text after the first dot, up to the plus sign that
    follows it. *)
Definition spec_DesignAutomationURI (uri : string) : Outcome DesignAutomationURI :=
  let qualified :=
    match index 0 "." uri with
    | Some d => substring (S d) (String.length uri - S d) uri
    | None => uri
    end in
  Returned
    {| uri_name :=
        match index 0 "+" qualified with
        | Some p => substring 0 p qualified
        | None => qualified
        end |}.

(** The state of the asynchronous generator [_pager] returns: not started
    yet, suspended at one of its two [yield]s (both resume at the test of
    the [while], with the locals [headers] and [response] alive), or
    finished. *)
Inductive PagerState (Item : Type) : Type :=
| PagerCreated
| PagerSuspended (headers : Headers) (response : Response Item)
| PagerCompleted.
Arguments PagerCreated {Item}.
Arguments PagerSuspended {Item} headers response.
Arguments PagerCompleted {Item}.

(** What one [next()] resolves to: [{ value, done: false }] or
    [{ done: true }]. *)
Inductive IteratorResult (Item : Type) : Type :=
| IterValue (value : list Item)
| IterDone.
Arguments IterValue {Item} value.
Arguments IterDone {Item}.

Section Client.

Context {Item Body : Type}.

(** [this.auth] and the transport, [this.auth.client_id], [this.host],
    and the constructor of [./common] that parses engine identifiers. *)
Variable remote : Remote Item Body.
Variable client_id : string.
Variable host : string.
Variable new_DesignAutomationURI : string -> Outcome DesignAutomationURI.

(** [this.auth.authenticate(scopes)] *)
Definition authenticate (scopes : list string) : Async Authentication :=
  fun tr => perform (CallAuthenticate scopes) (auth_reply remote tr scopes) tr.

(** [get(url, headers)] *)
Definition get (url : string) (headers : Headers) : Async (Response Item) :=
  fun tr => perform (CallGet url headers) (get_reply remote tr url headers) tr.

(** [post(url, { json: config }, headers)]; [config] may be [undefined]. *)
Definition post (url : string) (json : option ActivityConfig) (headers : Headers)
  : Async Body :=
  fun tr => perform (CallPost url json headers) (post_reply remote tr url json headers) tr.

(** One [next()] of the generator [_pager(endpoint, scopes)]: it runs
    the body from where the generator stands to the next [yield] or to
    the end. *)
Definition _pager (endpoint : string) (scopes : list string) (st : PagerState Item)
  : Async (IteratorResult Item * PagerState Item) :=
  match st with
  | PagerCreated =>
      await authentication := authenticate scopes in
      let headers : Headers := {[ "Authorization" := bearer authentication ]} in
      await response := get (host +:+ RootPath +:+ endpoint) headers in
      ret (IterValue (data response), PagerSuspended headers response)
  | PagerSuspended headers response =>
      match truthy_string (paginationToken response) with
      | Some token =>
          await authentication := authenticate scopes in
          let headers := <[ "Authorization" := bearer authentication ]> headers in
          await response :=
            get (host +:+ RootPath +:+ endpoint +:+ "?page=" +:+ token) headers in
          ret (IterValue (data response), PagerSuspended headers response)
      | None => ret (IterDone, PagerCompleted)
      end
  | PagerCompleted => ret (IterDone, PagerCompleted)
  end.

(** [for await (const page of this._pager(endpoint, scopes)) pages.push(page)]:
    the pages the generator yields when it is driven to its end, with
    the exception that ended the iteration, if one did.  Every [next()]
    costs one unit of fuel. *)
Fixpoint for_await (fuel : nat) (endpoint : string) (scopes : list string)
  (st : PagerState Item) (pages : list (list Item)) (tr : Trace)
  : option (list (list Item) * option Exn * Trace) :=
  match fuel with
  | 0 => None
  | S fuel =>
      match _pager endpoint scopes st tr with
      | None => None
      | Some (Thrown e, tr') => Some (pages, Some e, tr')
      | Some (Returned (IterDone, _), tr') => Some (pages, None, tr')
      | Some (Returned (IterValue page, st'), tr') =>
          for_await fuel endpoint scopes st' (pages ++ [page]) tr'
      end
  end.

(** The [while (response.paginationToken)] of [_collect]; every
    evaluation of its test costs one unit of fuel. *)
Fixpoint collect_while (fuel : nat) (endpoint : string) (scopes : list string)
  (headers : Headers) (response : Response Item) (results : list Item)
  : Async (list Item) :=
  match fuel with
  | 0 => out_of_fuel
  | S fuel =>
      match truthy_string (paginationToken response) with
      | Some token =>
          await authentication := authenticate scopes in
          let headers := <[ "Authorization" := bearer authentication ]> headers in
          await response :=
            get (host +:+ RootPath +:+ endpoint +:+ "?page=" +:+ token) headers in
          collect_while fuel endpoint scopes headers response (results ++ data response)
      | None => ret results
      end
  end.

Definition _collect (fuel : nat) (endpoint : string) (scopes : list string)
  : Async (list Item) :=
  await authentication := authenticate scopes in
  let headers : Headers := {[ "Authorization" := bearer authentication ]} in
  await response := get (host +:+ RootPath +:+ endpoint) headers in
  collect_while fuel endpoint scopes headers response (data response).

(** The [switch (engineUri.name)] of [createActivity] and
    [updateActivity].  It has no [default]: when no [case] matches,
    [config] keeps the [undefined] of its declaration ([None]).  A
    builder that throws makes the whole operation throw. *)
Definition select_config (name : string) (activityId : JsOpt)
  (description bundleName bundleAlias engine : string)
  (inputs : list InputDescriptor) (outputs : list OutputDescriptor) (script : JsOpt)
  : Outcome (option ActivityConfig) :=
  if String.eqb name "AutoCAD" then
    Returned (Some (_autocadActivityConfig activityId description client_id bundleName
                      bundleAlias engine inputs outputs script))
  else if String.eqb name "3dsMax" then
    match _3dsmaxActivityConfig activityId description client_id bundleName
            bundleAlias engine inputs outputs script with
    | Returned config => Returned (Some config)
    | Thrown e => Thrown e
    end
  else if String.eqb name "Revit" then
    Returned (Some (_revitActivityConfig activityId description client_id bundleName
                      bundleAlias engine inputs outputs))
  else if String.eqb name "Inventor" then
    Returned (Some (_inventorActivityConfig activityId description client_id bundleName
                      bundleAlias engine inputs outputs))
  else Returned None.

Definition createActivity (id description bundleName bundleAlias engine : string)
  (inputs : list InputDescriptor) (outputs : list OutputDescriptor) (script : JsOpt)
  : Async Body :=
  await authentication := authenticate ReadScopes in
  let headers : Headers := {[ "Authorization" := bearer authentication ]} in
  await engineUri := settle (new_DesignAutomationURI engine) in
  await config :=
    settle (select_config (uri_name engineUri) (JsString id) description bundleName
              bundleAlias engine inputs outputs script) in
  post (host +:+ RootPath +:+ "/activities") config headers.

Definition updateActivity (id description bundleName bundleAlias engine : string)
  (inputs : list InputDescriptor) (outputs : list OutputDescriptor) (script : JsOpt)
  : Async Body :=
  await authentication := authenticate ReadScopes in
  let headers : Headers := {[ "Authorization" := bearer authentication ]} in
  await engineUri := settle (new_DesignAutomationURI engine) in
  await config :=
    settle (select_config (uri_name engineUri) JsNull description bundleName
              bundleAlias engine inputs outputs script) in
  post (host +:+ RootPath +:+ "/activities/" +:+ id +:+ "/versions") config headers.

End Client.

(** ** A scripted remote *)

Fixpoint count_authenticates (tr : Trace) : nat :=
  match tr with
  | [] => 0
  | CallAuthenticate _ :: tr => S (count_authenticates tr)
  | _ :: tr => count_authenticates tr
  end.

Fixpoint count_gets (tr : Trace) : nat :=
  match tr with
  | [] => 0
  | CallGet _ _ :: tr => S (count_gets tr)
  | _ :: tr => count_gets tr
  end.

(** A remote that plays a fixed script: the n-th [authenticate] resolves to
    the token [tokens n], the n-th [get] to the n-th of [responses]
    whatever its URL (and fails once they are used up), and every [post] to
    [body]. *)
Definition scripted {Item Body : Type} (tokens : nat -> string)
  (responses : list (Response Item)) (body : Body) : Remote Item Body :=
  {| auth_reply tr _ := Returned {| access_token := tokens (count_authenticates tr) |};
     get_reply tr _ _ :=
       match responses !! count_gets tr with
       | Some r => Returned r
       | None => Thrown (Error "no response left")
       end;
     post_reply _ _ _ _ := Returned body |}.

(** The same script behind an authentication client that rejects every
    request. *)
Definition scripted_unauthorized {Item Body : Type}
  (responses : list (Response Item)) (body : Body) : Remote Item Body :=
  {| auth_reply _ _ := Thrown (Error "unauthorized");
     get_reply := get_reply (scripted (fun _ => EmptyString) responses body);
     post_reply _ _ _ _ := Returned body |}.

(** ** Concatenating the pages by hand *)

(** What a caller gets who drives the generator to its end and
    concatenates the pages it yielded, in the order they arrived: the
    concatenation when the iteration finished, the exception when one
    ended it. *)
Definition concat_pages {Item : Type}
  (r : option (list (list Item) * option Exn * Trace))
  : option (Outcome (list Item) * Trace) :=
  match r with
  | None => None
  | Some (pages, None, tr) => Some (Returned (concat pages), tr)
  | Some (_, Some e, tr) => Some (Thrown e, tr)
  end.

(** ** What the claims speak of *)

(** The generator, resumed after a page, stops: the [next()] finds the
    [while] test false and finishes without a further call. *)
Definition pager_stops {Item Body : Type} (remote : Remote Item Body) (host : string)
  (endpoint : string) (scopes : list string) (headers : Headers)
  (response : Response Item) (tr : Trace) : Prop :=
  _pager remote host endpoint scopes (PagerSuspended headers response) tr
  = Some (Returned (IterDone, PagerCompleted), tr).

(** The loop of [_collect] stops at a response: it returns the results
    gathered so far without a further call. *)
Definition collect_stops {Item Body : Type} (remote : Remote Item Body) (host : string)
  (fuel : nat) (endpoint : string) (scopes : list string) (headers : Headers)
  (response : Response Item) (results : list Item) (tr : Trace) : Prop :=
  collect_while remote host (S fuel) endpoint scopes headers response results tr
  = Some (Returned results, tr).

(** The URL of the request that follows a page carrying [token]. *)
Definition next_page_url (host endpoint token : string) : string :=
  host +:+ RootPath +:+ endpoint +:+ "?page=" +:+ token.

(** The text of a continuation token. *)
Definition token_text (v : JsOpt) : string :=
  match v with
  | JsString token => token
  | JsUndefined | JsNull => EmptyString
  end.

(** The responses [first :: rest] form pages that follow one another:
    each but the last carries a non-empty continuation token, the last
    carries none or an empty one. *)
Fixpoint chained {Item : Type} (first : Response Item) (rest : list (Response Item))
  : Prop :=
  match rest with
  | [] =>
      ~ supplied (paginationToken first)
      \/ paginationToken first = JsString EmptyString
  | next :: rest =>
      (exists token, paginationToken first = JsString token /\ token <> EmptyString)
      /\ chained next rest
  end.

(** The same with the words of the claim: each but the last carries a
    continuation token, the last carries none. *)
Fixpoint chained_as_stated {Item : Type} (first : Response Item)
  (rest : list (Response Item)) : Prop :=
  match rest with
  | [] => ~ supplied (paginationToken first)
  | next :: rest => supplied (paginationToken first) /\ chained_as_stated next rest
  end.

(** The calls of one round trip per response, the first to [url], each
    later one to the endpoint with the token of the response before it:
    an [authenticate] with [scopes], then the [get] under the token that
    this [authenticate], the n-th of the session, was answered with. *)
Fixpoint round_trips {Item : Type} (tokens : nat -> string) (host endpoint : string)
  (scopes : list string) (n : nat) (url : string) (responses : list (Response Item))
  : Trace :=
  match responses with
  | [] => []
  | response :: rest =>
      CallAuthenticate scopes
        :: CallGet url {[ "Authorization" := "Bearer " +:+ tokens n ]}
        :: round_trips tokens host endpoint scopes (S n)
             (next_page_url host endpoint (token_text (paginationToken response))) rest
  end.

(** ** The shape of a built config *)

(** The entry an input is registered under: [{ verb: 'get' }], with the
    description when the input has a truthy one. *)
Definition param_of_input (input : InputDescriptor) : ParameterDescriptor :=
  {| verb := "get";
     param_description := truthy_string (in_description input);
     param_localName := None |}.

(** The entry an output is registered under: [{ verb: 'put' }], with the
    description and the local name that are truthy. *)
Definition param_of_output (output : OutputDescriptor) : ParameterDescriptor :=
  {| verb := "put";
     param_description := truthy_string (out_description output);
     param_localName := truthy_string (out_localName output) |}.

(** Registering the inputs, then the outputs, each assignment replacing
    what the name held before. *)
Definition registered (inputs : list InputDescriptor) (outputs : list OutputDescriptor)
  : gmap string ParameterDescriptor :=
  fold_left (fun m output => assign_property (out_name output) (param_of_output output) m)
    outputs
    (fold_left (fun m input => assign_property (in_name input) (param_of_input input) m)
       inputs ∅).

(** The path placeholder of an input on the command line. *)
Definition placeholder (input : InputDescriptor) : string :=
  "$(args[" +:+ in_name input +:+ "].path)".

(** The base invocations of the three builders with an array command
    line. *)
Definition inventor_base (bundleName : string) : string :=
  "$(engine.path)\InventorCoreConsole.exe /al $(appbundles[" +:+ bundleName +:+ "].path)".

Definition revit_base (bundleName : string) : string :=
  "$(engine.path)\revitcoreconsole.exe /al $(appbundles[" +:+ bundleName +:+ "].path)".

Definition autocad_base (bundleName : string) : string :=
  "$(engine.path)\accoreconsole.exe /al $(appbundles[" +:+ bundleName +:+ "].path)".

(** The script switch and its placeholder, for a script the AutoCAD
    builder takes up: a non-empty string. *)
Definition script_switch (script : JsOpt) : list string :=
  match truthy_string script with
  | Some _ => ["/s"; "$(settings[script].path)"]
  | None => []
  end.

(** The same for every script that was passed at all. *)
Definition script_switch_as_stated (script : JsOpt) : list string :=
  match script with
  | JsString _ => ["/s"; "$(settings[script].path)"]
  | JsUndefined | JsNull => []
  end.

(** The tokens of a command line with inputs, in their order: the base
    invocation, the input switch, one placeholder per input, then the
    tokens of the script switch. *)
Definition command_tokens (base : string) (inputs : list InputDescriptor)
  (switch : list string) : list string :=
  base :: "/i" :: map placeholder inputs ++ switch.

(** A command line written out: its tokens, one space between them. *)
Definition join_tokens (tokens : list string) : string :=
  String.concat " " tokens.

(** ** Concrete sessions *)

Definition example_host : string := "https://developer.api.autodesk.com".

(** The tokens the scripted authentication client hands out, a new one
    at every call. *)
Definition example_tokens (n : nat) : string :=
  match n with
  | 0 => "t0"
  | 1 => "t1"
  | _ => "t2"
  end.

(** The responses of the round-trip example, as the spec writes them:
    the first one carries no token. *)
Definition literal_responses : list (Response nat) :=
  [ {| data := [1; 2]; paginationToken := JsUndefined |};
    {| data := [3]; paginationToken := JsString "X" |};
    {| data := [4; 5]; paginationToken := JsUndefined |} ].

(** The same pages with a token on the first response too, so that each
    page but the last announces the next. *)
Definition linked_responses : list (Response nat) :=
  [ {| data := [1; 2]; paginationToken := JsString "W" |};
    {| data := [3]; paginationToken := JsString "X" |};
    {| data := [4; 5]; paginationToken := JsUndefined |} ].

(** A page whose token is the empty string, and the page after it. *)
Definition empty_token_page : Response nat :=
  {| data := [1]; paginationToken := JsString EmptyString |}.

Definition page_after_empty_token : Response nat :=
  {| data := [2]; paginationToken := JsUndefined |}.

(** The history after the first round trip of a session on [/engines]. *)
Definition first_round_trip : Trace :=
  [ CallAuthenticate ReadScopes;
    CallGet (example_host +:+ RootPath +:+ "/engines")
      {[ "Authorization" := "Bearer t0" ]} ].

(** Descriptors for the examples. *)
Definition example_inputs : list InputDescriptor :=
  [ {| in_name := "drawing"; in_description := JsString "Input drawing" |};
    {| in_name := "params"; in_description := JsUndefined |} ].

Definition example_outputs : list OutputDescriptor :=
  [ {| out_name := "result";
       out_description := JsString "Plotted sheet";
       out_localName := JsString "result.pdf" |} ].

(** An input under the name [__proto__]. *)
Definition proto_input : InputDescriptor :=
  {| in_name := "__proto__"; in_description := JsString "Input drawing" |}.

(** An output that takes that name too. *)
Definition proto_output : OutputDescriptor :=
  {| out_name := "__proto__";
     out_description := JsUndefined;
     out_localName := JsString "drawing.out" |}.

(** An output that takes the name of the first example input. *)
Definition clashing_output : OutputDescriptor :=
  {| out_name := "drawing";
     out_description := JsUndefined;
     out_localName := JsString "drawing.out" |}.

(** ** The listing operations *)

(** [for await (const page of generator) pages.push(page)] over any
    generator, given by what one [next()] does from each of its states. *)
Fixpoint for_await_of {Item State : Type}
  (next : State -> Async (IteratorResult Item * State))
  (fuel : nat) (st : State) (pages : list (list Item)) (tr : Trace)
  : option (list (list Item) * option Exn * Trace) :=
  match fuel with
  | 0 => None
  | S fuel =>
      match next st tr with
      | None => None
      | Some (Thrown e, tr') => Some (pages, Some e, tr')
      | Some (Returned (IterDone, _), tr') => Some (pages, None, tr')
      | Some (Returned (IterValue page, st'), tr') =>
          for_await_of next fuel st' (pages ++ [page]) tr'
      end
  end.

(** A call a paginated listing of [endpoint] may make: an
    [authenticate] with its scopes, a [get] of the endpoint, or a [get] of
    the endpoint with a [page] parameter. *)
Definition pagination_call (host endpoint : string) (scopes : list string) (c : Call)
  : Prop :=
  match c with
  | CallAuthenticate scopes' => scopes' = scopes
  | CallGet url _ =>
      url = host +:+ RootPath +:+ endpoint
      \/ exists token, url = next_page_url host endpoint token
  | CallPost _ _ _ => False
  end.

Section Listings.

Context {Item Body : Type}.
Variable remote : Remote Item Body.
Variable host : string.

(** The body shared by the seven [iterate...] generators:
    [for await (const page of this._pager(endpoint, ReadScopes)) yield page].
    The generator holds the iterator of [_pager]; one [next()] takes one
    [next()] of it, yields the page it gave, and finishes when it is done. *)
Definition reyield (endpoint : string) (st : PagerState Item)
  : Async (IteratorResult Item * PagerState Item) :=
  await r := _pager remote host endpoint ReadScopes st in
  match r with
  | (IterValue page, st') => ret (IterValue page, st')
  | (IterDone, _) => ret (IterDone, PagerCompleted)
  end.

Definition iterateEngines := reyield "/engines".

Definition listEngines (fuel : nat) : Async (list Item) :=
  _collect remote host fuel "/engines" ReadScopes.

Definition iterateAppBundles := reyield "/appbundles".

Definition listAppBundles (fuel : nat) : Async (list Item) :=
  _collect remote host fuel "/appbundles" ReadScopes.

Definition iterateAppBundleAliases (name : string) :=
  reyield ("/appbundles/" +:+ name +:+ "/aliases").

Definition listAppBundleAliases (fuel : nat) (name : string) : Async (list Item) :=
  _collect remote host fuel ("/appbundles/" +:+ name +:+ "/aliases") ReadScopes.

Definition iterateAppBundleVersions (name : string) :=
  reyield ("/appbundles/" +:+ name +:+ "/versions").

Definition listAppBundleVersions (fuel : nat) (name : string) : Async (list Item) :=
  _collect remote host fuel ("/appbundles/" +:+ name +:+ "/versions") ReadScopes.

Definition iterateActivities := reyield "/activities".

Definition listActivities (fuel : nat) : Async (list Item) :=
  _collect remote host fuel "/activities" ReadScopes.

Definition iterateActivityAliases (name : string) :=
  reyield ("/activities/" +:+ name +:+ "/aliases").

Definition listActivityAliases (fuel : nat) (name : string) : Async (list Item) :=
  _collect remote host fuel ("/activities/" +:+ name +:+ "/aliases") ReadScopes.

Definition iterateActivityVersions (name : string) :=
  reyield ("/activities/" +:+ name +:+ "/versions").

Definition listActivityVersions (fuel : nat) (name : string) : Async (list Item) :=
  _collect remote host fuel ("/activities/" +:+ name +:+ "/versions") ReadScopes.

(** A caller that advances the iterator of [_pager] by hand: [n] calls of
    [next()], one after the other, with what each settled to.  A
    generator that threw is finished. *)
Fixpoint pager_nexts (endpoint : string) (scopes : list string) (n : nat)
  (st : PagerState Item) (tr : Trace)
  : list (Outcome (IteratorResult Item)) * Trace :=
  match n with
  | 0 => ([], tr)
  | S n =>
      match _pager remote host endpoint scopes st tr with
      | None => ([], tr)
      | Some (Thrown e, tr') =>
          let '(results, tr'') := pager_nexts endpoint scopes n PagerCompleted tr' in
          (Thrown e :: results, tr'')
      | Some (Returned (result, st'), tr') =>
          let '(results, tr'') := pager_nexts endpoint scopes n st' tr' in
          (Returned result :: results, tr'')
      end
  end.

End Listings.

(** The pages among the results of successive [next()] calls. *)
Fixpoint yielded {Item : Type} (results : list (Outcome (IteratorResult Item)))
  : list (list Item) :=
  match results with
  | [] => []
  | Returned (IterValue page) :: results => page :: yielded results
  | _ :: results => yielded results
  end.

(** A listing endpoint that never runs out: every [authenticate] is
    answered, and every page carries a token. *)
Definition endless_remote : Remote nat unit :=
  {| auth_reply _ _ := Returned {| access_token := "t" |};
     get_reply tr _ _ :=
       Returned {| data := [count_gets tr]; paginationToken := JsString "more" |};
     post_reply _ _ _ _ := Returned tt |}.

(** ** The config of each builder in closed form *)

(** The tokens the input block appends: none when there are no inputs. *)
Definition input_tokens (inputs : list InputDescriptor) : list string :=
  match inputs with
  | [] => []
  | _ :: _ => "/i" :: map placeholder inputs
  end.

(** The [settings] block: there for a truthy script only. *)
Definition settings_of (script : JsOpt) : option Settings :=
  match truthy_string script with
  | Some s => Some {| settings_script := s |}
  | None => None
  end.

(** The three parts of the 3dsMax command line. *)
Definition max_base : string := "$(engine.path)\3dsmaxbatch.exe".

Definition scene_file (inputs : list InputDescriptor) : string :=
  match inputs with
  | input :: _ => " -sceneFile " +:+ dquote +:+ placeholder input +:+ dquote
  | [] => EmptyString
  end.

Definition script_file (script : JsOpt) : string :=
  match truthy_string script with
  | Some _ => " " +:+ dquote +:+ "$(settings[script].path)" +:+ dquote
  | None => EmptyString
  end.

(** The one app-bundle reference of a config. *)
Definition appbundle_reference (ownerId bundleName bundleAlias : string) : string :=
  ownerId +:+ "." +:+ bundleName +:+ "+" +:+ bundleAlias.

(** ** Work items *)

(** Input descriptors [{ name, url, localName? }] and output descriptors
    [{ name, url }] of a work item. *)
Record WorkItemInput : Type := {
  wi_in_name : string;
  wi_in_url : string;
  wi_in_localName : JsOpt
}.

Record WorkItemOutput : Type := {
  wi_out_name : string;
  wi_out_url : string
}.

(** One entry of [config.arguments]: [{ verb?, url, localName? }]. *)
Record WorkItemArgument : Type := {
  arg_verb : option string;
  arg_url : string;
  arg_localName : option string
}.

(** [{ activityId, arguments }], the JSON body of a work item.
    [wi_arguments] holds the own properties of [config.arguments]. *)
Record WorkItemConfig : Type := {
  wi_activityId : string;
  wi_arguments : gmap string WorkItemArgument
}.

(** The calls of [createWorkItem], whose [post] carries a work item. *)
Inductive WorkItemCall : Type :=
| WorkItemAuthenticate (scopes : list string)
| WorkItemPost (url : string) (json : WorkItemConfig) (headers : Headers).

(** The remote side of [createWorkItem]: what each of its calls settles
    to, given the calls before it. *)
Record WorkItemRemote (Body : Type) : Type := {
  wi_auth_reply : list WorkItemCall -> list string -> Outcome Authentication;
  wi_post_reply :
    list WorkItemCall -> string -> WorkItemConfig -> Headers -> Outcome Body
}.
Arguments wi_auth_reply {Body} _.
Arguments wi_post_reply {Body} _.

(** The body of [for (const input of inputs)] in [createWorkItem]. *)
Definition add_input_argument (config : WorkItemConfig) (input : WorkItemInput)
  : WorkItemConfig :=
  let config :=
    {| wi_activityId := wi_activityId config;
       wi_arguments :=
         assign_property (wi_in_name input)
           {| arg_verb := None; arg_url := wi_in_url input; arg_localName := None |}
           (wi_arguments config) |} in
  match truthy_string (wi_in_localName input) with
  | Some l =>
      {| wi_activityId := wi_activityId config;
         wi_arguments :=
           update_property
             (fun a => {| arg_verb := arg_verb a;
                          arg_url := arg_url a;
                          arg_localName := Some l |})
             (wi_in_name input) (wi_arguments config) |}
  | None => config
  end.

(** The body of [for (const output of outputs)] in [createWorkItem]. *)
Definition add_output_argument (config : WorkItemConfig) (output : WorkItemOutput)
  : WorkItemConfig :=
  {| wi_activityId := wi_activityId config;
     wi_arguments :=
       assign_property (wi_out_name output)
         {| arg_verb := Some "put"; arg_url := wi_out_url output;
            arg_localName := None |}
         (wi_arguments config) |}.

Definition createWorkItem {Body : Type} (remote : WorkItemRemote Body) (host : string)
  (activityId : string) (inputs : list WorkItemInput) (outputs : list WorkItemOutput)
  (tr : list WorkItemCall) : Outcome Body * list WorkItemCall :=
  match wi_auth_reply remote tr ReadScopes with
  | Thrown e => (Thrown e, tr ++ [WorkItemAuthenticate ReadScopes])
  | Returned authentication =>
      let tr := tr ++ [WorkItemAuthenticate ReadScopes] in
      let headers : Headers := {[ "Authorization" := bearer authentication ]} in
      let config := {| wi_activityId := activityId; wi_arguments := ∅ |} in
      let config := fold_left add_input_argument inputs config in
      let config := fold_left add_output_argument outputs config in
      let url := host +:+ RootPath +:+ "/workitems" in
      (wi_post_reply remote tr url config headers,
       tr ++ [WorkItemPost url config headers])
  end.

(** The entries the two loops of [createWorkItem] write. *)
Definition argument_of_input (input : WorkItemInput) : WorkItemArgument :=
  {| arg_verb := None;
     arg_url := wi_in_url input;
     arg_localName := truthy_string (wi_in_localName input) |}.

Definition argument_of_output (output : WorkItemOutput) : WorkItemArgument :=
  {| arg_verb := Some "put";
     arg_url := wi_out_url output;
     arg_localName := None |}.

(** A remote for work items that answers every call. *)
Definition willing_remote : WorkItemRemote unit :=
  {| wi_auth_reply _ _ := Returned {| access_token := "t0" |};
     wi_post_reply _ _ _ _ := Returned tt |}.

(** * Pagination *)

(** Unfolds the plumbing of an asynchronous computation down to the
    replies of the remote. *)
Ltac run_calls := unfold bind, authenticate, get, post, perform, settle, ret.

Section PaginationFacts.

Context {Item Body : Type}.
Variable remote : Remote Item Body.
Variable host : string.

Lemma concat_snoc (pages : list (list Item)) (page : list Item) :
  concat (pages ++ [page]) = concat pages ++ page.
Proof.
  rewrite concat_app. simpl. now rewrite app_nil_r.
Qed.

(** The loop of [_collect] and the generator resumed at its [while]
    walk in lockstep: same fuel, same calls, same outcome. *)
Lemma collect_while_for_await (endpoint : string) (scopes : list string) (fuel : nat) :
  forall (headers : Headers) (response : Response Item)
         (pages : list (list Item)) (tr : Trace),
    collect_while remote host fuel endpoint scopes headers response (concat pages) tr
    = concat_pages
        (for_await remote host fuel endpoint scopes
           (PagerSuspended headers response) pages tr).
Proof.
  induction fuel as [|fuel IH]; intros headers response pages tr.
  - reflexivity.
  - simpl. destruct (truthy_string (paginationToken response)) as [token|].
    + run_calls.
      destruct (auth_reply remote tr scopes) as [authentication|e]; [|reflexivity].
      destruct (get_reply remote _ _ _) as [response'|e]; [|reflexivity].
      simpl. rewrite <- IH. now rewrite concat_snoc.
    + reflexivity.
Qed.

(** C1.  [_collect] returns exactly what concatenating the pages yielded
    by [_pager] gives, for every remote, endpoint, scope list and
    history: the items of the pages in the order the generator yielded
    them, after the same calls; it throws the exception that ends the
    iteration when one does; and it is still looping exactly when the
    generator still yields. *)
Theorem collect_is_concat_of_pager (fuel : nat) (endpoint : string)
  (scopes : list string) (tr : Trace) :
  _collect remote host fuel endpoint scopes tr
  = concat_pages
      (for_await remote host (S fuel) endpoint scopes PagerCreated [] tr).
Proof.
  unfold _collect. simpl.
  run_calls.
  destruct (auth_reply remote tr scopes) as [authentication|e]; [|reflexivity].
  destruct (get_reply remote _ _ _) as [response|e]; [|reflexivity].
  simpl. rewrite <- collect_while_for_await. simpl. now rewrite app_nil_r.
Qed.

End PaginationFacts.

Section ContinuationFacts.

Context {Item Body : Type}.
Variable remote : Remote Item Body.
Variable host : string.
Variable endpoint : string.
Variable scopes : list string.

Lemma truthy_string_None (v : JsOpt) :
  truthy_string v = None <-> ~ supplied v \/ v = JsString EmptyString.
Proof.
  destruct v as [| |s]; simpl.
  - split; [intros _; left; intros [] | reflexivity].
  - split; [intros _; left; intros [] | reflexivity].
  - destruct (String.eqb_spec s EmptyString) as [->|Hne].
    + split; [intros _; now right | reflexivity].
    + split; [discriminate | intros [H|H]; [now destruct H | congruence]].
Qed.

Lemma truthy_string_Some (v : JsOpt) (token : string) :
  truthy_string v = Some token <-> v = JsString token /\ token <> EmptyString.
Proof.
  destruct v as [| |s]; simpl; try (split; [discriminate | intros [? _]; discriminate]).
  destruct (String.eqb_spec s EmptyString) as [->|Hne]; split.
  - discriminate.
  - intros [[= <-] H]. congruence.
  - intros [= <-]. tauto.
  - intros [[= <-] _]. reflexivity.
Qed.

Lemma app_neq_self {A : Type} (l more : list A) :
  more <> [] -> l ++ more <> l.
Proof.
  intros Hne Heq. apply Hne.
  apply (app_inv_head l). rewrite app_nil_r. exact Heq.
Qed.

(** A run of the loop only ever adds calls to the history. *)
Lemma collect_while_extends (fuel : nat) :
  forall (headers : Headers) (response : Response Item) (results : list Item)
         (tr tr' : Trace) (o : Outcome (list Item)),
    collect_while remote host fuel endpoint scopes headers response results tr
    = Some (o, tr') ->
    exists more, tr' = tr ++ more.
Proof.
  induction fuel as [|fuel IH]; intros headers response results tr tr' o; simpl.
  - discriminate.
  - destruct (truthy_string (paginationToken response)) as [token|].
    + run_calls.
      destruct (auth_reply remote tr scopes) as [authentication|e].
      * destruct (get_reply remote _ _ _) as [response'|e].
        -- intros H. apply IH in H as [more ->].
           exists ([CallAuthenticate scopes;
                    CallGet (host +:+ RootPath +:+ endpoint +:+ "?page=" +:+ token)
                      (<["Authorization" := bearer authentication]> headers)] ++ more).
           now rewrite <- !app_assoc.
        -- intros [= _ <-]. rewrite <- app_assoc. eauto.
      * intros [= _ <-]. eauto.
    + intros [= _ <-]. exists []. now rewrite app_nil_r.
Qed.

(** C4 (amended).  At every page response, in [_pager] and in
    [_collect] alike, the iteration stops, without a further call, if
    and only if the response carries no [paginationToken] or carries an
    empty one.  When it carries a non-empty token the iteration goes
    on: it authenticates again with the same scopes, and once that
    succeeds the next request is a [get] of the same endpoint with
    [?page=<paginationToken>] appended, under the refreshed header; the
    generator yields the page that comes back, the loop of [_collect]
    appends it and goes on from it. *)
Theorem continuation_token_contract (headers : Headers) (response : Response Item)
  (results : list Item) (fuel : nat) (tr : Trace) :
  (pager_stops remote host endpoint scopes headers response tr
   <-> ~ supplied (paginationToken response)
       \/ paginationToken response = JsString EmptyString)
  /\ (collect_stops remote host fuel endpoint scopes headers response results tr
      <-> ~ supplied (paginationToken response)
          \/ paginationToken response = JsString EmptyString)
  /\ (forall token : string,
        paginationToken response = JsString token -> token <> EmptyString ->
        let url := next_page_url host endpoint token in
        let authenticated := tr ++ [CallAuthenticate scopes] in
        match auth_reply remote tr scopes with
        | Thrown e =>
            _pager remote host endpoint scopes (PagerSuspended headers response) tr
            = Some (Thrown e, authenticated)
            /\ collect_while remote host (S fuel) endpoint scopes headers response
                 results tr
               = Some (Thrown e, authenticated)
        | Returned authentication =>
            let headers' := <["Authorization" := bearer authentication]> headers in
            let requested := tr ++ [CallAuthenticate scopes; CallGet url headers'] in
            match get_reply remote authenticated url headers' with
            | Thrown e =>
                _pager remote host endpoint scopes (PagerSuspended headers response) tr
                = Some (Thrown e, requested)
                /\ collect_while remote host (S fuel) endpoint scopes headers response
                     results tr
                   = Some (Thrown e, requested)
            | Returned next =>
                _pager remote host endpoint scopes (PagerSuspended headers response) tr
                = Some (Returned (IterValue (data next), PagerSuspended headers' next),
                        requested)
                /\ collect_while remote host (S fuel) endpoint scopes headers response
                     results tr
                   = collect_while remote host fuel endpoint scopes headers' next
                       (results ++ data next) requested
            end
        end).
Proof.
  rewrite <- !truthy_string_None.
  unfold pager_stops, collect_stops, next_page_url. simpl.
  split; [|split].
  - destruct (truthy_string (paginationToken response)) as [token|]; [|tauto].
    split; [|discriminate].
    run_calls.
    destruct (auth_reply remote tr scopes); [|discriminate].
    destruct (get_reply remote _ _ _); discriminate.
  - destruct (truthy_string (paginationToken response)) as [token|]; [|tauto].
    split; [|discriminate].
    run_calls.
    destruct (auth_reply remote tr scopes); [|discriminate].
    destruct (get_reply remote _ _ _); [|discriminate].
    intros H. apply collect_while_extends in H as [more H].
    symmetry in H. rewrite <- !app_assoc in H.
    exfalso. eapply app_neq_self; [|exact H]. discriminate.
  - intros token Htoken Hne.
    assert (truthy_string (paginationToken response) = Some token) as ->
      by now apply truthy_string_Some.
    run_calls.
    destruct (auth_reply remote tr scopes) as [authentication|e]; [|now split].
    destruct (get_reply remote _ _ _) as [next|e];
      rewrite <- app_assoc; now split.
Qed.

End ContinuationFacts.

Section ScriptedFacts.

Context {Item Body : Type}.
Variable tokens : nat -> string.
Variable body : Body.
Variable host : string.
Variable endpoint : string.
Variable scopes : list string.

Lemma count_authenticates_app (tr tr' : Trace) :
  count_authenticates (tr ++ tr') = count_authenticates tr + count_authenticates tr'.
Proof.
  induction tr as [|[]]; simpl; congruence.
Qed.

Lemma count_gets_app (tr tr' : Trace) :
  count_gets (tr ++ tr') = count_gets tr + count_gets tr'.
Proof.
  induction tr as [|[]]; simpl; congruence.
Qed.

Lemma count_authenticates_round_trips (n : nat) (url : string)
  (responses : list (Response Item)) :
  count_authenticates (round_trips tokens host endpoint scopes n url responses)
  = length responses.
Proof.
  revert n url. induction responses as [|r rest IH]; intros n url; simpl; [reflexivity|].
  now rewrite IH.
Qed.

Lemma count_gets_round_trips (n : nat) (url : string)
  (responses : list (Response Item)) :
  count_gets (round_trips tokens host endpoint scopes n url responses)
  = length responses.
Proof.
  revert n url. induction responses as [|r rest IH]; intros n url; simpl; [reflexivity|].
  now rewrite IH.
Qed.

(** The loop of [_collect] against the script, started after [served]
    has been fetched and standing at [response]: it fetches [rest]. *)
Lemma collect_while_scripted (rest : list (Response Item)) :
  forall (served : list (Response Item)) (response : Response Item)
         (results : list Item) (tr : Trace) (bearer0 : string) (fuel : nat),
    count_authenticates tr = length served ->
    count_gets tr = length served ->
    chained response rest ->
    length rest < fuel ->
    collect_while (scripted tokens (served ++ rest) body) host fuel endpoint scopes
      {[ "Authorization" := bearer0 ]} response results tr
    = Some (Returned (results ++ concat (map data rest)),
            tr ++ round_trips tokens host endpoint scopes (length served)
                    (next_page_url host endpoint (token_text (paginationToken response)))
                    rest).
Proof.
  induction rest as [|next rest IH];
    intros served response results tr bearer0 fuel Hauth Hget Hchain Hfuel;
    (destruct fuel as [|fuel]; [simpl in Hfuel; lia|]); simpl in *.
  - apply truthy_string_None in Hchain. rewrite Hchain.
    unfold ret. now rewrite !app_nil_r.
  - destruct Hchain as [(token & Htoken & Hne) Hchain].
    assert (truthy_string (paginationToken response) = Some token) as ->
      by now apply truthy_string_Some.
    run_calls. simpl.
    rewrite count_gets_app, Hget, Hauth. simpl. rewrite Nat.add_0_r.
    rewrite list_lookup_middle by reflexivity.
    rewrite insert_singleton_eq.
    replace (served ++ next :: rest) with ((served ++ [next]) ++ rest)
      by now rewrite <- app_assoc.
    rewrite (IH (served ++ [next])).
    + rewrite Htoken. simpl. rewrite length_app. simpl.
      rewrite Nat.add_1_r, <- !app_assoc. reflexivity.
    + rewrite !count_authenticates_app, Hauth, length_app. simpl. lia.
    + rewrite !count_gets_app, Hget, length_app. simpl. lia.
    + exact Hchain.
    + lia.
Qed.

(** C5 (amended).  Against responses that form k pages, each of the
    first k-1 carrying a non-empty continuation token and the k-th
    carrying none or an empty one, [_collect] returns, given fuel for k
    tests of its loop, the items of the k pages concatenated in page
    order, after exactly k [authenticate] calls and k [get] requests:
    each page fetch is preceded by an [authenticate] with the given
    scopes and sent under the token that call was answered with. *)
Theorem collect_round_trips (first : Response Item) (rest : list (Response Item))
  (fuel : nat) :
  chained first rest ->
  length rest < fuel ->
  exists tr : Trace,
    _collect (scripted tokens (first :: rest) body) host fuel endpoint scopes []
    = Some (Returned (concat (map data (first :: rest))), tr)
    /\ tr = round_trips tokens host endpoint scopes 0
              (host +:+ RootPath +:+ endpoint) (first :: rest)
    /\ count_authenticates tr = S (length rest)
    /\ count_gets tr = S (length rest).
Proof.
  intros Hchain Hfuel. eexists. split; [|split; [reflexivity|]].
  - unfold _collect. run_calls. simpl.
    rewrite (collect_while_scripted rest [first]); simpl; auto.
  - simpl. now rewrite count_authenticates_round_trips, count_gets_round_trips.
Qed.

End ScriptedFacts.

(** ** The pagination claims on concrete sessions *)

(** C4 as stated fails: a response whose [paginationToken] is the empty
    string carries one, yet the generator and the loop of [_collect] both
    stop at it. *)
Lemma empty_token_stops_iteration :
  ~ (pager_stops (scripted example_tokens [empty_token_page; page_after_empty_token] tt)
       example_host "/engines" ReadScopes {[ "Authorization" := "Bearer t0" ]}
       empty_token_page first_round_trip
     <-> ~ supplied (paginationToken empty_token_page))
  /\ ~ (collect_stops (scripted example_tokens [empty_token_page; page_after_empty_token] tt)
          example_host 0 "/engines" ReadScopes {[ "Authorization" := "Bearer t0" ]}
          empty_token_page [1] first_round_trip
        <-> ~ supplied (paginationToken empty_token_page)).
Proof.
  split; intros [Hstops _]; apply Hstops; simpl; auto; reflexivity.
Qed.

(** A whole run over the linked pages: every request after the first
    repeats the endpoint with the token of the page before it, under a
    token of its own. *)
Example linked_responses_requests :
  _collect (scripted example_tokens linked_responses tt) example_host 3
    "/engines" ReadScopes []
  = Some (Returned [1; 2; 3; 4; 5],
          [CallAuthenticate ["code:all"];
           CallGet "https://developer.api.autodesk.com/da/us-east/v3/engines"
             {[ "Authorization" := "Bearer t0" ]};
           CallAuthenticate ["code:all"];
           CallGet "https://developer.api.autodesk.com/da/us-east/v3/engines?page=W"
             {[ "Authorization" := "Bearer t1" ]};
           CallAuthenticate ["code:all"];
           CallGet "https://developer.api.autodesk.com/da/us-east/v3/engines?page=X"
             {[ "Authorization" := "Bearer t2" ]}]).
Proof. vm_compute. reflexivity. Qed.

(** The pages the generator yields over the same session, one per
    [next()], before it finishes. *)
Example linked_responses_pages :
  fst <$> for_await (scripted example_tokens linked_responses tt) example_host 4
            "/engines" ReadScopes PagerCreated [] []
  = Some ([[1; 2]; [3]; [4; 5]], None).
Proof. vm_compute. reflexivity. Qed.

(** C5 at work: three linked pages, three round trips. *)
Lemma collect_round_trips_witness :
  exists tr : Trace,
    _collect (scripted example_tokens linked_responses tt) example_host 3
      "/engines" ReadScopes []
    = Some (Returned [1; 2; 3; 4; 5], tr)
    /\ tr = round_trips example_tokens example_host "/engines" ReadScopes 0
              (example_host +:+ RootPath +:+ "/engines") linked_responses
    /\ count_authenticates tr = 3
    /\ count_gets tr = 3.
Proof.
  apply (collect_round_trips example_tokens tt example_host "/engines" ReadScopes
           {| data := [1; 2]; paginationToken := JsString "W" |}
           [ {| data := [3]; paginationToken := JsString "X" |};
             {| data := [4; 5]; paginationToken := JsUndefined |} ] 3).
  - simpl. repeat split.
    + exists "W". split; [reflexivity | discriminate].
    + exists "X". split; [reflexivity | discriminate].
    + left. intros [].
  - simpl. lia.
Defined.

(** C5 as stated fails: when a page other than the last carries the empty
    string as its token, [_collect] stops at that page. *)
Lemma empty_token_ends_collect :
  ~ (chained_as_stated empty_token_page [page_after_empty_token] ->
     exists tr : Trace,
       _collect (scripted example_tokens [empty_token_page; page_after_empty_token] tt)
         example_host 2 "/engines" ReadScopes []
       = Some (Returned (concat (map data [empty_token_page; page_after_empty_token])), tr)
       /\ count_authenticates tr = 2
       /\ count_gets tr = 2).
Proof.
  intros H. destruct H as (tr & Hrun & _).
  - simpl. split; [exact I | intros []].
  - vm_compute in Hrun. discriminate Hrun.
Qed.

(** C6 as stated fails: over the literal responses [_collect] never
    returns the five items, whatever the fuel. *)
Lemma literal_responses_not_all_collected :
  ~ exists (fuel : nat) (tr : Trace),
      _collect (scripted example_tokens literal_responses tt) example_host fuel
        "/engines" ReadScopes []
      = Some (Returned [1; 2; 3; 4; 5], tr).
Proof.
  intros (fuel & tr & H). destruct fuel; cbn in H; discriminate H.
Qed.

(** C6 (amended).  Over the literal responses, whose first one carries no
    token, [_collect] stops after one round trip and returns [1; 2].
    Over the same pages linked by tokens (W on the first response, X on
    the second, none on the third) it returns [1; 2; 3; 4; 5]. *)
Theorem collect_literal_responses (fuel : nat) :
  _collect (scripted example_tokens literal_responses tt) example_host (S fuel)
    "/engines" ReadScopes []
  = Some (Returned [1; 2],
          [CallAuthenticate ["code:all"];
           CallGet "https://developer.api.autodesk.com/da/us-east/v3/engines"
             {[ "Authorization" := "Bearer t0" ]}])
  /\ exists tr : Trace,
       _collect (scripted example_tokens linked_responses tt) example_host
         (S (S (S fuel))) "/engines" ReadScopes []
       = Some (Returned [1; 2; 3; 4; 5], tr)
       /\ count_gets tr = 3.
Proof.
  split.
  - reflexivity.
  - eexists. split; [cbn; reflexivity | reflexivity].
Qed.

(** * Activity configs *)

Section BuilderFacts.

Lemma append_assoc (s1 s2 s3 : string) :
  (s1 +:+ s2) +:+ s3 = s1 +:+ s2 +:+ s3.
Proof.
  induction s1 as [|c s1 IH]; [reflexivity|].
  change (String c ((s1 +:+ s2) +:+ s3) = String c (s1 +:+ s2 +:+ s3)).
  now rewrite IH.
Qed.

(** Appending the tokens one by one, a space before each, writes the
    token sequence out. *)
Lemma fold_append_join (tokens : list string) :
  forall line : string,
    fold_left (fun l token => l +:+ " " +:+ token) tokens line
    = join_tokens (line :: tokens).
Proof.
  unfold join_tokens.
  induction tokens as [|token tokens IH]; intros line; simpl; [reflexivity|].
  rewrite IH. destruct tokens as [|token' tokens]; simpl.
  - reflexivity.
  - now rewrite !append_assoc.
Qed.

Lemma append_to_line0_commandLine (s : string) (config : ActivityConfig) :
  cfg_commandLine (append_to_line0 s config)
  = match cfg_commandLine config with
    | CmdArray lines => CmdArray (alter (fun l => l +:+ s) 0 lines)
    | CmdString line => CmdString line
    end.
Proof.
  unfold append_to_line0. now destruct (cfg_commandLine config) eqn:H.
Qed.

Lemma append_to_line_commandLine (s : string) (config : ActivityConfig) :
  cfg_commandLine (append_to_line s config)
  = match cfg_commandLine config with
    | CmdArray lines => CmdArray lines
    | CmdString line => CmdString (line +:+ s)
    end.
Proof.
  unfold append_to_line. now destruct (cfg_commandLine config) eqn:H.
Qed.

(** [__proto__] is the one name that names no own property. *)
Lemma names_own_property_true (name : string) :
  names_own_property name = true <-> name <> "__proto__".
Proof.
  unfold names_own_property. now destruct (String.eqb_spec name "__proto__").
Qed.

Lemma names_own_property_false (name : string) :
  names_own_property name = false <-> name = "__proto__".
Proof.
  unfold names_own_property. now destruct (String.eqb_spec name "__proto__").
Qed.

(** A field set on what was just assigned, in one step. *)
Lemma update_assign_property {V : Type} (f : V -> V) (name : string) (value : V)
  (object : gmap string V) :
  update_property f name (assign_property name value object)
  = assign_property name (f value) object.
Proof.
  unfold update_property, assign_property.
  destruct (names_own_property name); [apply alter_insert_eq | reflexivity].
Qed.

(** One pass of each loop body, as a single update of the config. *)
Lemma add_input_eq (config : ActivityConfig) (input : InputDescriptor) :
  add_input config input
  = set_parameters
      (assign_property (in_name input) (param_of_input input) (cfg_parameters config))
      (append_to_line0 (" " +:+ placeholder input) config).
Proof.
  unfold add_input, param_of_input, placeholder, set_parameter_description,
    set_parameter, append_to_line0.
  destruct (cfg_commandLine config), (truthy_string (in_description input));
    unfold set_parameters; simpl; try rewrite update_assign_property; reflexivity.
Qed.

Lemma add_output_eq (config : ActivityConfig) (output : OutputDescriptor) :
  add_output config output
  = set_parameters
      (assign_property (out_name output) (param_of_output output) (cfg_parameters config))
      config.
Proof.
  unfold add_output, param_of_output, set_parameter_description,
    set_parameter_localName, set_parameter.
  destruct (truthy_string (out_description output)),
           (truthy_string (out_localName output));
    unfold set_parameters; simpl; rewrite ?update_assign_property; reflexivity.
Qed.

(** The output loop touches [parameters] only. *)
Lemma add_outputs_eq (outputs : list OutputDescriptor) :
  forall config : ActivityConfig,
    fold_left add_output outputs config
    = set_parameters
        (fold_left
           (fun m output => assign_property (out_name output) (param_of_output output) m)
           outputs (cfg_parameters config))
        config.
Proof.
  induction outputs as [|output outputs IH]; intros config; simpl.
  - now destruct config.
  - rewrite IH, add_output_eq. reflexivity.
Qed.

(** The input loop on an array command line of one string. *)
Lemma add_input_loop_eq (inputs : list InputDescriptor) :
  forall (config : ActivityConfig) (line : string),
    cfg_commandLine config = CmdArray [line] ->
    fold_left add_input inputs config
    = set_parameters
        (fold_left
           (fun m input => assign_property (in_name input) (param_of_input input) m)
           inputs (cfg_parameters config))
        (set_commandLine
           (CmdArray [fold_left (fun l token => l +:+ " " +:+ token)
                        (map placeholder inputs) line])
           config).
Proof.
  induction inputs as [|input inputs IH]; intros config line Hline; simpl.
  - destruct config; simpl in *; now subst.
  - rewrite (IH _ (line +:+ " " +:+ placeholder input)).
    + rewrite add_input_eq. unfold append_to_line0. rewrite Hline. reflexivity.
    + rewrite add_input_eq. unfold append_to_line0. rewrite Hline. reflexivity.
Qed.

Lemma add_inputs_eq (inputs : list InputDescriptor) (config : ActivityConfig)
  (line : string) :
  cfg_commandLine config = CmdArray [line] ->
  inputs <> [] ->
  add_inputs inputs config
  = set_parameters
      (fold_left
         (fun m input => assign_property (in_name input) (param_of_input input) m)
         inputs (cfg_parameters config))
      (set_commandLine
         (CmdArray [join_tokens (line :: "/i" :: map placeholder inputs)])
         config).
Proof.
  intros Hline Hinputs. unfold add_inputs.
  destruct inputs as [|input inputs]; [congruence|].
  change (0 <? length (input :: inputs)) with true. cbv iota.
  rewrite (add_input_loop_eq _ _ (line +:+ " /i")).
  - unfold append_to_line0. rewrite Hline.
    rewrite <- (fold_append_join ("/i" :: map placeholder (input :: inputs)) line).
    reflexivity.
  - unfold append_to_line0. rewrite Hline. reflexivity.
Qed.

(** The input block leaves [parameters] with one assignment per input,
    whether or not there are inputs. *)
Lemma add_inputs_parameters (inputs : list InputDescriptor) (config : ActivityConfig)
  (line : string) :
  cfg_commandLine config = CmdArray [line] ->
  cfg_parameters (add_inputs inputs config)
  = fold_left (fun m input => assign_property (in_name input) (param_of_input input) m)
      inputs (cfg_parameters config).
Proof.
  intros Hline. destruct inputs as [|input inputs]; [reflexivity|].
  now rewrite (add_inputs_eq _ _ line).
Qed.

Lemma add_inputs_id (inputs : list InputDescriptor) (config : ActivityConfig)
  (line : string) :
  cfg_commandLine config = CmdArray [line] ->
  cfg_id (add_inputs inputs config) = cfg_id config.
Proof.
  intros Hline. destruct inputs as [|input inputs]; [reflexivity|].
  now rewrite (add_inputs_eq _ _ line).
Qed.

Lemma add_inputs_commandLine_array (inputs : list InputDescriptor)
  (config : ActivityConfig) (line : string) :
  cfg_commandLine config = CmdArray [line] ->
  exists line', cfg_commandLine (add_inputs inputs config) = CmdArray [line'].
Proof.
  intros Hline. destruct inputs as [|input inputs]; [now exists line|].
  rewrite (add_inputs_eq _ _ line) by easy. simpl. eauto.
Qed.

(** ** The parameter mapping of each builder *)

Lemma inventor_parameters (activityId : JsOpt)
  (description ownerId bundleName bundleAlias engine : string)
  (inputs : list InputDescriptor) (outputs : list OutputDescriptor) :
  cfg_parameters (_inventorActivityConfig activityId description ownerId bundleName
                    bundleAlias engine inputs outputs)
  = registered inputs outputs.
Proof.
  unfold _inventorActivityConfig, registered.
  rewrite add_outputs_eq. simpl.
  destruct (truthy activityId); now erewrite add_inputs_parameters.
Qed.

Lemma revit_parameters (activityId : JsOpt)
  (description ownerId bundleName bundleAlias engine : string)
  (inputs : list InputDescriptor) (outputs : list OutputDescriptor) :
  cfg_parameters (_revitActivityConfig activityId description ownerId bundleName
                    bundleAlias engine inputs outputs)
  = registered inputs outputs.
Proof.
  unfold _revitActivityConfig, registered.
  rewrite add_outputs_eq. simpl. now erewrite add_inputs_parameters.
Qed.

Lemma autocad_parameters (activityId : JsOpt)
  (description ownerId bundleName bundleAlias engine : string)
  (inputs : list InputDescriptor) (outputs : list OutputDescriptor) (script : JsOpt) :
  cfg_parameters (_autocadActivityConfig activityId description ownerId bundleName
                    bundleAlias engine inputs outputs script)
  = registered inputs outputs.
Proof.
  unfold _autocadActivityConfig, registered.
  rewrite add_outputs_eq.
  destruct (truthy_string script) as [s|]; unfold append_to_line0; simpl.
  - edestruct add_inputs_commandLine_array as [line' ->]; [reflexivity|].
    simpl. now erewrite add_inputs_parameters.
  - now erewrite add_inputs_parameters.
Qed.

Lemma max_parameters (activityId : JsOpt)
  (description ownerId bundleName bundleAlias engine : string)
  (inputs : list InputDescriptor) (outputs : list OutputDescriptor) (script : JsOpt)
  (config : ActivityConfig) :
  _3dsmaxActivityConfig activityId description ownerId bundleName bundleAlias engine
    inputs outputs script = Returned config ->
  cfg_parameters config = registered inputs outputs.
Proof.
  unfold _3dsmaxActivityConfig, registered.
  destruct inputs as [|input [|input' inputs]]; simpl; [| |discriminate].
  - intros [= <-]. rewrite add_outputs_eq.
    destruct (truthy_string script); reflexivity.
  - intros [= <-]. rewrite add_outputs_eq.
    unfold set_parameter_description, param_of_input.
    destruct (truthy_string script), (truthy_string (in_description input));
      simpl; rewrite ?update_assign_property; reflexivity.
Qed.

(** The 3dsMax builder returns a config exactly when it is given at
    most one input. *)
Lemma max_returns (activityId : JsOpt)
  (description ownerId bundleName bundleAlias engine : string)
  (inputs : list InputDescriptor) (outputs : list OutputDescriptor) (script : JsOpt) :
  length inputs <= 1 ->
  exists config,
    _3dsmaxActivityConfig activityId description ownerId bundleName bundleAlias engine
      inputs outputs script = Returned config.
Proof.
  intros Hlen. unfold _3dsmaxActivityConfig.
  destruct inputs as [|input [|input' inputs]]; simpl in *; [eauto | eauto | lia].
Qed.

Lemma max_throws (activityId : JsOpt)
  (description ownerId bundleName bundleAlias engine : string)
  (inputs : list InputDescriptor) (outputs : list OutputDescriptor) (script : JsOpt) :
  1 < length inputs ->
  _3dsmaxActivityConfig activityId description ownerId bundleName bundleAlias engine
    inputs outputs script
  = Thrown (Error "3dsMax engine only supports single input file.").
Proof.
  intros Hlen. unfold _3dsmaxActivityConfig.
  destruct inputs as [|input [|input' inputs]]; simpl in *; [lia | lia | reflexivity].
Qed.

(** ** Assignments to an object used as a map, one after the other *)

Section Assignments.

Context {A V : Type}.
Variable key : A -> string.
Variable val : A -> V.

Let assign (m : gmap string V) (a : A) : gmap string V :=
  assign_property (key a) (val a) m.

Lemma assign_other (l : list A) :
  forall (m : gmap string V) (k : string),
    k ∉ key <$> l -> fold_left assign l m !! k = m !! k.
Proof.
  induction l as [|a l IH]; intros m k Hk; simpl; [reflexivity|].
  apply not_elem_of_cons in Hk as [Hne Hk].
  rewrite IH by assumption. unfold assign, assign_property.
  destruct (names_own_property (key a)); [now rewrite lookup_insert_ne | reflexivity].
Qed.

(** No assignment makes [__proto__] a key. *)
Lemma assign_proto (l : list A) :
  forall m : gmap string V,
    m !! "__proto__" = None -> fold_left assign l m !! "__proto__" = None.
Proof.
  induction l as [|a l IH]; intros m Hm; simpl; [exact Hm|].
  apply IH. unfold assign, assign_property.
  destruct (names_own_property (key a)) eqn:Hown; [|exact Hm].
  apply names_own_property_true in Hown. now rewrite lookup_insert_ne.
Qed.

(** Last write wins. *)
Lemma assign_last (before after : list A) (a : A) (m : gmap string V) :
  key a <> "__proto__" ->
  key a ∉ key <$> after ->
  fold_left assign (before ++ a :: after) m !! key a = Some (val a).
Proof.
  intros Hown Hafter. rewrite fold_left_app. simpl.
  rewrite assign_other by assumption. unfold assign, assign_property.
  apply names_own_property_true in Hown. rewrite Hown. apply lookup_insert_eq.
Qed.

Lemma assign_dom (l : list A) :
  forall m : gmap string V,
    dom (fold_left assign l m)
    = dom m ∪ (list_to_set (key <$> l) ∖ {["__proto__"]}).
Proof.
  induction l as [|a l IH]; intros m; simpl.
  - apply set_eq. intros k. set_unfold. tauto.
  - rewrite IH. unfold assign, assign_property.
    destruct (names_own_property (key a)) eqn:Hown.
    + apply names_own_property_true in Hown. rewrite dom_insert_L.
      apply set_eq. intros k. set_unfold.
      destruct (decide (k = key a)) as [->|]; tauto.
    + apply names_own_property_false in Hown.
      apply set_eq. intros k. set_unfold.
      destruct (decide (k = key a)) as [->|]; [tauto|]. tauto.
Qed.

(** Every entry was put there by one of the assignments, or was there
    before and has been left alone. *)
Lemma assign_lookup_Some (l : list A) :
  forall (m : gmap string V) (k : string) (v : V),
    k <> "__proto__" ->
    fold_left assign l m !! k = Some v ->
    (exists a, a ∈ l /\ key a = k /\ v = val a)
    \/ ((k ∉ key <$> l) /\ m !! k = Some v).
Proof.
  induction l as [|a l IH]; intros m k v Hown; simpl.
  - intros H. right. split; [apply not_elem_of_nil | exact H].
  - intros H. apply (IH _ _ _ Hown) in H as [(a' & Hin & Hkey & Hval)|[Hnotin H]].
    + left. exists a'. split; [now apply list_elem_of_further | auto].
    + unfold assign, assign_property in H. destruct (decide (key a = k)) as [Heq|Hne].
      * subst k. apply names_own_property_true in Hown. rewrite Hown in H.
        rewrite lookup_insert_eq in H. injection H as <-.
        left. exists a. split; [apply list_elem_of_here | auto].
      * right. split; [apply not_elem_of_cons; auto|].
        destruct (names_own_property (key a)); [|exact H].
        now rewrite lookup_insert_ne in H.
Qed.

End Assignments.

Lemma NoDup_fmap_middle {A : Type} (key : A -> string) (before after : list A) (a : A) :
  NoDup (key <$> before ++ a :: after) -> key a ∉ key <$> after.
Proof.
  rewrite fmap_app, fmap_cons. intros H.
  apply NoDup_app in H as (_ & _ & H). now apply NoDup_cons in H as [H _].
Qed.

(** No descriptor makes [__proto__] a key of the mapping. *)
Lemma registered_proto (inputs : list InputDescriptor) (outputs : list OutputDescriptor) :
  registered inputs outputs !! "__proto__" = None.
Proof.
  unfold registered. apply assign_proto, assign_proto, lookup_empty.
Qed.

Lemma registered_input (inputs : list InputDescriptor) (outputs : list OutputDescriptor)
  (input : InputDescriptor) :
  NoDup ((in_name <$> inputs) ++ (out_name <$> outputs)) ->
  input ∈ inputs ->
  in_name input <> "__proto__" ->
  registered inputs outputs !! in_name input = Some (param_of_input input).
Proof.
  intros Hnodup Hin Hown. unfold registered.
  apply NoDup_app in Hnodup as (Hinputs & Hdisjoint & _).
  rewrite assign_other.
  - apply list_elem_of_split in Hin as (before & after & ->).
    apply assign_last; [exact Hown|]. now apply NoDup_fmap_middle in Hinputs.
  - apply Hdisjoint. now apply list_elem_of_fmap_2.
Qed.

Lemma registered_output (inputs : list InputDescriptor) (before after : list OutputDescriptor)
  (output : OutputDescriptor) :
  out_name output <> "__proto__" ->
  out_name output ∉ out_name <$> after ->
  registered inputs (before ++ output :: after) !! out_name output
  = Some (param_of_output output).
Proof.
  intros Hown Hafter. unfold registered. now apply assign_last.
Qed.

Lemma registered_dom (inputs : list InputDescriptor) (outputs : list OutputDescriptor) :
  dom (registered inputs outputs)
  = list_to_set ((in_name <$> inputs) ++ (out_name <$> outputs)) ∖ {["__proto__"]}.
Proof.
  unfold registered. rewrite !assign_dom, dom_empty_L, (left_id_L ∅ (∪)).
  rewrite list_to_set_app_L. apply set_eq. intros k. set_unfold. tauto.
Qed.

(** With pairwise distinct names there is one entry per descriptor, but
    for the descriptor named [__proto__], if there is one. *)
Lemma registered_size (inputs : list InputDescriptor) (outputs : list OutputDescriptor) :
  NoDup ((in_name <$> inputs) ++ (out_name <$> outputs)) ->
  size (registered inputs outputs)
  + (if bool_decide ("__proto__" ∈ (in_name <$> inputs) ++ (out_name <$> outputs))
     then 1 else 0)
  = length inputs + length outputs.
Proof.
  intros Hnodup. rewrite <- size_dom, registered_dom.
  rewrite <- (length_fmap in_name inputs), <- (length_fmap out_name outputs), <- length_app.
  rewrite <- (size_list_to_set (C := gset string)) by assumption.
  destruct (bool_decide_reflect
              ("__proto__" ∈ (in_name <$> inputs) ++ (out_name <$> outputs))) as [Hin|Hnotin].
  - assert (Hsub : ({["__proto__"]} : gset string)
                   ⊆ list_to_set ((in_name <$> inputs) ++ (out_name <$> outputs))).
    { apply singleton_subseteq_l. now apply elem_of_list_to_set. }
    rewrite size_difference by exact Hsub.
    apply subseteq_size in Hsub. rewrite size_singleton in *. lia.
  - rewrite Nat.add_0_r. f_equal. apply set_eq. intros k. set_unfold.
    split; [tauto|]. intros Hk. split; [exact Hk|]. now intros ->.
Qed.

Lemma join_tokens_switch (tokens : list string) (first switch path : string) :
  join_tokens (first :: tokens ++ [switch; path])
  = join_tokens (first :: tokens) +:+ " " +:+ switch +:+ " " +:+ path.
Proof.
  rewrite <- !fold_append_join, fold_left_app. simpl. now rewrite append_assoc.
Qed.

(** C7 (amended).  For the AutoCAD, Revit and Inventor builders given at
    least one input, [commandLine] is an array of one string, and that
    string is the fixed token sequence written out with single spaces:
    the base invocation first, then the input switch [/i] followed by
    one [$(args[<name>].path)] placeholder per input in the order of the
    input list, then, in the AutoCAD builder only and when the script
    is a non-empty string, the script switch [/s] with its placeholder
    last.  The outputs add nothing to it. *)
Theorem command_line_token_order (activityId : JsOpt)
  (description ownerId bundleName bundleAlias engine : string)
  (inputs : list InputDescriptor) (outputs : list OutputDescriptor) (script : JsOpt) :
  inputs <> [] ->
  cfg_commandLine (_autocadActivityConfig activityId description ownerId bundleName
                     bundleAlias engine inputs outputs script)
  = CmdArray [join_tokens (command_tokens (autocad_base bundleName) inputs
                             (script_switch script))]
  /\ cfg_commandLine (_revitActivityConfig activityId description ownerId bundleName
                        bundleAlias engine inputs outputs)
     = CmdArray [join_tokens (command_tokens (revit_base bundleName) inputs [])]
  /\ cfg_commandLine (_inventorActivityConfig activityId description ownerId bundleName
                        bundleAlias engine inputs outputs)
     = CmdArray [join_tokens (command_tokens (inventor_base bundleName) inputs [])].
Proof.
  intros Hinputs. unfold command_tokens, script_switch. rewrite app_nil_r.
  split; [|split].
  - unfold _autocadActivityConfig. rewrite add_outputs_eq.
    rewrite (add_inputs_eq _ _ (autocad_base bundleName)) by easy.
    destruct (truthy_string script) as [s|]; simpl.
    + unfold append_to_line0. simpl. do 2 f_equal. symmetry.
      exact (join_tokens_switch ("/i" :: map placeholder inputs)
               (autocad_base bundleName) "/s" "$(settings[script].path)").
    + now rewrite app_nil_r.
  - unfold _revitActivityConfig. rewrite add_outputs_eq.
    now rewrite (add_inputs_eq _ _ (revit_base bundleName)).
  - unfold _inventorActivityConfig. rewrite add_outputs_eq.
    destruct (truthy activityId);
      now rewrite (add_inputs_eq _ _ (inventor_base bundleName)).
Qed.

End BuilderFacts.

(** * Submitting activities *)

Section ActivityFacts.

Variable client_id : string.

(** A config comes out of the [switch] only through one of its four
    cases. *)
Lemma select_config_cases (name : string) (activityId : JsOpt)
  (description bundleName bundleAlias engine : string)
  (inputs : list InputDescriptor) (outputs : list OutputDescriptor) (script : JsOpt)
  (config : ActivityConfig) :
  select_config client_id name activityId description bundleName bundleAlias engine
    inputs outputs script = Returned (Some config) ->
  (name = "AutoCAD"
   /\ config = _autocadActivityConfig activityId description client_id bundleName
                 bundleAlias engine inputs outputs script)
  \/ (name = "3dsMax"
      /\ _3dsmaxActivityConfig activityId description client_id bundleName
           bundleAlias engine inputs outputs script = Returned config)
  \/ (name = "Revit"
      /\ config = _revitActivityConfig activityId description client_id bundleName
                    bundleAlias engine inputs outputs)
  \/ (name = "Inventor"
      /\ config = _inventorActivityConfig activityId description client_id bundleName
                    bundleAlias engine inputs outputs).
Proof.
  unfold select_config.
  destruct (String.eqb_spec name "AutoCAD") as [->|_]; [intros [= <-]; auto|].
  destruct (String.eqb_spec name "3dsMax") as [->|_].
  { destruct (_3dsmaxActivityConfig _ _ _ _ _ _ _ _ _); intros [= <-]; auto. }
  destruct (String.eqb_spec name "Revit") as [->|_]; [intros [= <-]; auto 6|].
  destruct (String.eqb_spec name "Inventor") as [->|_]; [intros [= <-]; auto 6|].
  discriminate.
Qed.

(** Under each of the four names a builder runs, and it returns a config
    unless it is the 3dsMax one given more than one input. *)
Lemma select_config_returns (name : string) (activityId : JsOpt)
  (description bundleName bundleAlias engine : string)
  (inputs : list InputDescriptor) (outputs : list OutputDescriptor) (script : JsOpt) :
  name = "AutoCAD" \/ name = "Revit" \/ name = "Inventor"
  \/ (name = "3dsMax" /\ length inputs <= 1) ->
  exists config,
    select_config client_id name activityId description bundleName bundleAlias engine
      inputs outputs script = Returned (Some config).
Proof.
  intros [->|[->|[->|[-> Hlen]]]]; unfold select_config; simpl; eauto.
  destruct (max_returns activityId description client_id bundleName bundleAlias
              engine inputs outputs script Hlen) as [config ->].
  eauto.
Qed.

(** Off the four names no builder runs and [config] stays [undefined]. *)
Lemma select_config_unrecognized (name : string) (activityId : JsOpt)
  (description bundleName bundleAlias engine : string)
  (inputs : list InputDescriptor) (outputs : list OutputDescriptor) (script : JsOpt) :
  name <> "AutoCAD" -> name <> "3dsMax" -> name <> "Revit" -> name <> "Inventor" ->
  select_config client_id name activityId description bundleName bundleAlias engine
    inputs outputs script = Returned None.
Proof.
  intros H1 H2 H3 H4. unfold select_config.
  destruct (String.eqb_spec name "AutoCAD"); [congruence|].
  destruct (String.eqb_spec name "3dsMax"); [congruence|].
  destruct (String.eqb_spec name "Revit"); [congruence|].
  destruct (String.eqb_spec name "Inventor"); [congruence|].
  reflexivity.
Qed.

Lemma select_config_parameters (name : string) (activityId : JsOpt)
  (description bundleName bundleAlias engine : string)
  (inputs : list InputDescriptor) (outputs : list OutputDescriptor) (script : JsOpt)
  (config : ActivityConfig) :
  select_config client_id name activityId description bundleName bundleAlias engine
    inputs outputs script = Returned (Some config) ->
  cfg_parameters config = registered inputs outputs.
Proof.
  intros H.
  apply select_config_cases in H as [[_ ->]|[[_ H]|[[_ ->]|[_ ->]]]].
  - apply autocad_parameters.
  - now apply max_parameters in H.
  - apply revit_parameters.
  - apply inventor_parameters.
Qed.

(** The command line is the same whatever the outputs are. *)
Lemma select_config_commandLine (name : string) (activityId : JsOpt)
  (description bundleName bundleAlias engine : string)
  (inputs : list InputDescriptor) (outputs : list OutputDescriptor) (script : JsOpt)
  (config : ActivityConfig) :
  select_config client_id name activityId description bundleName bundleAlias engine
    inputs outputs script = Returned (Some config) ->
  exists config0,
    select_config client_id name activityId description bundleName bundleAlias engine
      inputs [] script = Returned (Some config0)
    /\ cfg_commandLine config = cfg_commandLine config0.
Proof.
  intros H.
  apply select_config_cases in H as [[-> ->]|[[-> H]|[[-> ->]|[-> ->]]]];
    unfold select_config; simpl.
  - eexists. split; [reflexivity|].
    unfold _autocadActivityConfig. rewrite add_outputs_eq. simpl.
    destruct (truthy_string script); [|reflexivity].
    now rewrite !append_to_line0_commandLine.
  - revert H. unfold _3dsmaxActivityConfig.
    destruct (1 <? length inputs); [discriminate|].
    intros [= <-]. eexists. split; [reflexivity|].
    rewrite add_outputs_eq. simpl.
    destruct (truthy_string script); [|reflexivity].
    now rewrite !append_to_line_commandLine.
  - eexists. split; [reflexivity|].
    unfold _revitActivityConfig. now rewrite add_outputs_eq.
  - eexists. split; [reflexivity|].
    unfold _inventorActivityConfig. now rewrite add_outputs_eq.
Qed.

(** C8 (amended).  Whichever builder runs, the AutoCAD, Revit and
    Inventor ones always and the 3dsMax one when given at most one input,
    it returns a config, and when the names of the inputs and outputs are
    pairwise distinct and none is [__proto__], the parameter mapping
    holds, for every input, an entry under its name with the verb [get]
    and, for every output, an entry under its name with the verb [put];
    it holds as many entries as there are descriptors, so one per name
    and no other; and the command line is the one the builder writes
    when given no outputs at all. *)
Theorem parameters_one_entry_per_name (name : string) (activityId : JsOpt)
  (description bundleName bundleAlias engine : string)
  (inputs : list InputDescriptor) (outputs : list OutputDescriptor) (script : JsOpt) :
  name = "AutoCAD" \/ name = "Revit" \/ name = "Inventor"
  \/ (name = "3dsMax" /\ length inputs <= 1) ->
  NoDup ((in_name <$> inputs) ++ (out_name <$> outputs)) ->
  "__proto__" ∉ (in_name <$> inputs) ++ (out_name <$> outputs) ->
  exists config,
    select_config client_id name activityId description bundleName bundleAlias engine
      inputs outputs script = Returned (Some config)
    /\ (forall input, input ∈ inputs ->
          cfg_parameters config !! in_name input = Some (param_of_input input)
          /\ verb (param_of_input input) = "get")
    /\ (forall output, output ∈ outputs ->
          cfg_parameters config !! out_name output = Some (param_of_output output)
          /\ verb (param_of_output output) = "put")
    /\ size (cfg_parameters config) = length inputs + length outputs
    /\ exists config0,
         select_config client_id name activityId description bundleName bundleAlias
           engine inputs [] script = Returned (Some config0)
         /\ cfg_commandLine config = cfg_commandLine config0.
Proof.
  intros Hname Hnodup Hown.
  destruct (select_config_returns name activityId description bundleName bundleAlias
              engine inputs outputs script Hname)
    as [config Hconfig].
  exists config. split; [exact Hconfig|].
  rewrite (select_config_parameters _ _ _ _ _ _ _ _ _ _ Hconfig).
  split; [|split; [|split]].
  - intros input Hin. split; [|reflexivity].
    apply registered_input; [exact Hnodup | exact Hin|].
    intros Hproto. apply Hown. rewrite <- Hproto.
    apply elem_of_app. left. now apply list_elem_of_fmap_2.
  - intros output Hin. split; [|reflexivity].
    assert (Hname' : out_name output <> "__proto__").
    { intros Hproto. apply Hown. rewrite <- Hproto.
      apply elem_of_app. right. now apply list_elem_of_fmap_2. }
    apply list_elem_of_split in Hin as (before & after & ->).
    apply registered_output; [exact Hname'|].
    apply NoDup_app in Hnodup as (_ & _ & Houtputs).
    now apply NoDup_fmap_middle in Houtputs.
  - pose proof (registered_size inputs outputs Hnodup) as Hsize.
    rewrite bool_decide_eq_false_2 in Hsize by exact Hown. lia.
  - now apply select_config_commandLine in Hconfig.
Qed.

(** C10 (amended).  In every builder that returns a config (the
    AutoCAD, Revit and Inventor ones always, the 3dsMax one when given
    at most one input), an output that shares its name, another one than
    [__proto__], with an input raises no error: the config is returned,
    and the entry of that name in the parameter mapping is the [put]
    descriptor of the output, the last one registered under the name.
    Outputs are registered after inputs and overwrite them. *)
Theorem shared_name_last_write_wins (name : string) (activityId : JsOpt)
  (description bundleName bundleAlias engine : string)
  (inputs : list InputDescriptor) (before after : list OutputDescriptor)
  (input : InputDescriptor) (output : OutputDescriptor) (script : JsOpt) :
  name = "AutoCAD" \/ name = "Revit" \/ name = "Inventor"
  \/ (name = "3dsMax" /\ length inputs <= 1) ->
  input ∈ inputs ->
  in_name input = out_name output ->
  out_name output <> "__proto__" ->
  out_name output ∉ out_name <$> after ->
  exists config,
    select_config client_id name activityId description bundleName bundleAlias engine
      inputs (before ++ output :: after) script = Returned (Some config)
    /\ cfg_parameters config !! in_name input = Some (param_of_output output)
    /\ verb (param_of_output output) = "put".
Proof.
  intros Hname _ Hshared Hown Hlast.
  destruct (select_config_returns name activityId description bundleName bundleAlias
              engine inputs (before ++ output :: after) script Hname)
    as [config Hconfig].
  exists config. split; [exact Hconfig|].
  rewrite (select_config_parameters _ _ _ _ _ _ _ _ _ _ Hconfig), Hshared.
  split; [now apply registered_output | reflexivity].
Qed.

End ActivityFacts.

Section SubmissionFacts.

Context {Item Body : Type}.
Variable remote : Remote Item Body.
Variable client_id : string.
Variable host : string.
Variable new_DesignAutomationURI : string -> Outcome DesignAutomationURI.

(** C3 (amended).  A [createActivity] call for a 3dsMax engine with more
    than one input fails, and produces and posts no config.  It makes
    one call, the [authenticate] every operation starts with; when that
    call succeeds the builder throws its validation error before any
    request goes to the activities endpoint, and when it fails its own
    error is the one thrown. *)
Theorem create_3dsmax_rejects_inputs (id description bundleName bundleAlias engine : string)
  (uri : DesignAutomationURI)
  (inputs : list InputDescriptor) (outputs : list OutputDescriptor) (script : JsOpt)
  (tr : Trace) :
  new_DesignAutomationURI engine = Returned uri ->
  uri_name uri = "3dsMax" ->
  1 < length inputs ->
  createActivity remote client_id host new_DesignAutomationURI id description
    bundleName bundleAlias engine inputs outputs script tr
  = Some (match auth_reply remote tr ReadScopes with
          | Returned _ => Thrown (Error "3dsMax engine only supports single input file.")
          | Thrown e => Thrown e
          end,
          tr ++ [CallAuthenticate ReadScopes]).
Proof.
  intros Huri Hname Hinputs.
  unfold createActivity. run_calls.
  destruct (auth_reply remote tr ReadScopes) as [authentication|e]; [|reflexivity].
  rewrite Huri, Hname. unfold select_config. simpl.
  now rewrite max_throws.
Qed.

End SubmissionFacts.

(** ** The builders and the two operations on concrete inputs *)

(** C7 as stated fails: an AutoCAD activity created with the empty string
    as its script has a script, yet its command line ends with the input
    placeholders and carries no script switch. *)
Lemma empty_script_adds_no_switch :
  cfg_commandLine
    (_autocadActivityConfig (JsString "Plot") "Plots a drawing" "owner" "PlotBundle"
       "prod" "Autodesk.AutoCAD+23" example_inputs example_outputs
       (JsString EmptyString))
  <> CmdArray [join_tokens (command_tokens (autocad_base "PlotBundle") example_inputs
                              (script_switch_as_stated (JsString EmptyString)))].
Proof.
  intros H. vm_compute in H. discriminate H.
Qed.

(** C7 at work: two inputs and a script. *)
Lemma command_line_token_order_witness :
  cfg_commandLine
    (_autocadActivityConfig (JsString "Plot") "Plots a drawing" "owner" "PlotBundle"
       "prod" "Autodesk.AutoCAD+23" example_inputs example_outputs (JsString "plot.scr"))
  = CmdArray [join_tokens ["$(engine.path)\accoreconsole.exe /al $(appbundles[PlotBundle].path)";
                           "/i"; "$(args[drawing].path)"; "$(args[params].path)";
                           "/s"; "$(settings[script].path)"]]
  /\ cfg_commandLine
       (_revitActivityConfig (JsString "Plot") "Plots a drawing" "owner" "PlotBundle"
          "prod" "Autodesk.Revit+2019" example_inputs example_outputs)
     = CmdArray [join_tokens ["$(engine.path)\revitcoreconsole.exe /al $(appbundles[PlotBundle].path)";
                              "/i"; "$(args[drawing].path)"; "$(args[params].path)"]]
  /\ cfg_commandLine
       (_inventorActivityConfig (JsString "Plot") "Plots a drawing" "owner" "PlotBundle"
          "prod" "Autodesk.Inventor+23" example_inputs example_outputs)
     = CmdArray [join_tokens ["$(engine.path)\InventorCoreConsole.exe /al $(appbundles[PlotBundle].path)";
                              "/i"; "$(args[drawing].path)"; "$(args[params].path)"]].
Proof.
  apply (command_line_token_order (JsString "Plot") "Plots a drawing" "owner" "PlotBundle"
           "prod" "Autodesk.AutoCAD+23" example_inputs example_outputs (JsString "plot.scr")).
  discriminate.
Defined.

(** The same command line as the one string the array holds. *)
Example autocad_command_line_written_out :
  cfg_commandLine
    (_autocadActivityConfig (JsString "Plot") "Plots a drawing" "owner" "PlotBundle"
       "prod" "Autodesk.AutoCAD+23" example_inputs example_outputs (JsString "plot.scr"))
  = CmdArray ["$(engine.path)\accoreconsole.exe /al $(appbundles[PlotBundle].path) /i $(args[drawing].path) $(args[params].path) /s $(settings[script].path)"].
Proof. vm_compute. reflexivity. Qed.

(** The 3dsMax builder on one input and a script: a single string, the
    scene file and the script each between double quotes. *)
Example max_command_line_written_out :
  cfg_commandLine <$>
    match _3dsmaxActivityConfig (JsString "Render") "Renders a scene" "owner" "MaxBundle"
            "prod" "Autodesk.3dsMax+2019"
            [ {| in_name := "scene"; in_description := JsUndefined |} ]
            example_outputs (JsString "render.ms") with
    | Returned config => Some config
    | Thrown _ => None
    end
  = Some (CmdString ("$(engine.path)\3dsmaxbatch.exe -sceneFile "
                       +:+ dquote +:+ "$(args[scene].path)" +:+ dquote +:+ " "
                       +:+ dquote +:+ "$(settings[script].path)" +:+ dquote)).
Proof. vm_compute. reflexivity. Qed.

(** C8 at work: each of the four builders on the example output and on
    inputs of other names, two of them but for the 3dsMax builder, which
    takes one. *)
Lemma parameters_one_entry_per_name_witness :
  Forall (fun '(name, engine, inputs) =>
            exists config,
              select_config "owner" name (JsString "Plot") "Plots a drawing" "PlotBundle"
                "prod" engine inputs example_outputs JsUndefined
              = Returned (Some config)
              /\ (forall input, input ∈ inputs ->
                    cfg_parameters config !! in_name input = Some (param_of_input input)
                    /\ verb (param_of_input input) = "get")
              /\ (forall output, output ∈ example_outputs ->
                    cfg_parameters config !! out_name output
                    = Some (param_of_output output)
                    /\ verb (param_of_output output) = "put")
              /\ size (cfg_parameters config) = length inputs + length example_outputs
              /\ exists config0,
                   select_config "owner" name (JsString "Plot") "Plots a drawing"
                     "PlotBundle" "prod" engine inputs [] JsUndefined
                   = Returned (Some config0)
                   /\ cfg_commandLine config = cfg_commandLine config0)
    [ ("AutoCAD", "Autodesk.AutoCAD+23", example_inputs);
      ("3dsMax", "Autodesk.3dsMax+2019",
       [ {| in_name := "scene"; in_description := JsUndefined |} ]);
      ("Revit", "Autodesk.Revit+2019", example_inputs);
      ("Inventor", "Autodesk.Inventor+23", example_inputs) ].
Proof.
  apply List.Forall_cons;
    [apply (parameters_one_entry_per_name "owner" "AutoCAD");
       [now left | apply (bool_decide_unpack _); vm_compute; exact I
        | apply (bool_decide_unpack _); vm_compute; exact I]|].
  apply List.Forall_cons;
    [apply (parameters_one_entry_per_name "owner" "3dsMax");
       [right; right; right; split; [reflexivity | simpl; lia]
        | apply (bool_decide_unpack _); vm_compute; exact I
        | apply (bool_decide_unpack _); vm_compute; exact I]|].
  apply List.Forall_cons;
    [apply (parameters_one_entry_per_name "owner" "Revit");
       [right; now left | apply (bool_decide_unpack _); vm_compute; exact I
        | apply (bool_decide_unpack _); vm_compute; exact I]|].
  apply List.Forall_cons;
    [apply (parameters_one_entry_per_name "owner" "Inventor");
       [right; right; now left | apply (bool_decide_unpack _); vm_compute; exact I
        | apply (bool_decide_unpack _); vm_compute; exact I]|].
  apply List.Forall_nil.
Defined.

(** C8 as stated fails, in two ways.  With two inputs of distinct names
    the 3dsMax builder produces no descriptor at all.  And in the Revit
    builder an input named [__proto__], a name distinct from the one of
    the output, gets no entry: the mapping holds one entry, the one of
    the output, for two descriptors. *)
Lemma distinct_names_without_their_entries :
  (NoDup ((in_name <$> example_inputs) ++ (out_name <$> example_outputs))
   /\ ~ exists config,
         _3dsmaxActivityConfig (JsString "Render") "Renders a scene" "owner" "MaxBundle"
           "prod" "Autodesk.3dsMax+2019" example_inputs example_outputs JsUndefined
         = Returned config)
  /\ (NoDup ((in_name <$> [proto_input]) ++ (out_name <$> example_outputs))
      /\ (~ exists entry,
            cfg_parameters
              (_revitActivityConfig (JsString "Plot") "Plots a drawing" "owner"
                 "PlotBundle" "prod" "Autodesk.Revit+2019" [proto_input] example_outputs)
            !! in_name proto_input = Some entry
            /\ verb entry = "get")
      /\ size (cfg_parameters
                 (_revitActivityConfig (JsString "Plot") "Plots a drawing" "owner"
                    "PlotBundle" "prod" "Autodesk.Revit+2019" [proto_input]
                    example_outputs))
         <> length [proto_input] + length example_outputs).
Proof.
  split; [split|split; [|split]].
  - apply (bool_decide_unpack _). vm_compute. exact I.
  - intros [config H]. vm_compute in H. discriminate H.
  - apply (bool_decide_unpack _). vm_compute. exact I.
  - intros (entry & H & _). vm_compute in H. discriminate H.
  - vm_compute. discriminate.
Qed.

(** The mapping the Revit builder leaves for that input, written out. *)
Example proto_named_input_is_not_registered :
  cfg_parameters
    (_revitActivityConfig (JsString "Plot") "Plots a drawing" "owner" "PlotBundle" "prod"
       "Autodesk.Revit+2019" [proto_input] example_outputs)
  = {[ "result" := {| verb := "put";
                      param_description := Some "Plotted sheet";
                      param_localName := Some "result.pdf" |} ]}.
Proof. vm_compute. reflexivity. Qed.

(** C10 as stated fails, in two ways.  Given two inputs the 3dsMax
    builder throws, whether or not an output shares a name with one of
    them.  And in the AutoCAD builder an input and an output that share
    the name [__proto__] leave no entry under that name. *)
Lemma shared_name_without_its_entry :
  (~ exists config,
       select_config "owner" "3dsMax" (JsString "Render") "Renders a scene" "MaxBundle"
         "prod" "Autodesk.3dsMax+2019" example_inputs [clashing_output] JsUndefined
       = Returned (Some config)
       /\ cfg_parameters config !! "drawing" = Some (param_of_output clashing_output))
  /\ (in_name proto_input = out_name proto_output
      /\ ~ exists config,
            select_config "owner" "AutoCAD" (JsString "Plot") "Plots a drawing"
              "PlotBundle" "prod" "Autodesk.AutoCAD+23" [proto_input] [proto_output]
              JsUndefined
            = Returned (Some config)
            /\ cfg_parameters config !! out_name proto_output
               = Some (param_of_output proto_output)).
Proof.
  split; [|split; [reflexivity|]].
  - intros (config & H & _). vm_compute in H. discriminate H.
  - intros (config & H & Hentry). injection H as <-.
    vm_compute in Hentry. discriminate Hentry.
Qed.

(** C10 at work: in the AutoCAD builder the output named like the first
    input takes over its entry. *)
Lemma shared_name_last_write_wins_witness :
  exists config,
    select_config "owner" "AutoCAD" (JsString "Plot") "Plots a drawing" "PlotBundle"
      "prod" "Autodesk.AutoCAD+23" example_inputs (example_outputs ++ [clashing_output])
      JsUndefined = Returned (Some config)
    /\ cfg_parameters config !! "drawing"
       = Some {| verb := "put";
                 param_description := None;
                 param_localName := Some "drawing.out" |}
    /\ verb (param_of_output clashing_output) = "put".
Proof.
  apply (shared_name_last_write_wins "owner" "AutoCAD" (JsString "Plot") "Plots a drawing"
           "PlotBundle" "prod" "Autodesk.AutoCAD+23" example_inputs example_outputs []
           {| in_name := "drawing"; in_description := JsString "Input drawing" |}
           clashing_output JsUndefined).
  - now left.
  - apply list_elem_of_here.
  - reflexivity.
  - discriminate.
  - apply not_elem_of_nil.
Defined.

(** C3 as stated fails: with two inputs for a 3dsMax engine the validation
    error is thrown, but not before any call: the history holds the
    [authenticate] that [createActivity] made first. *)
Lemma create_3dsmax_authenticates_first :
  createActivity (scripted example_tokens (@nil (Response nat)) tt) "owner" example_host
    spec_DesignAutomationURI "Render" "Renders a scene" "MaxBundle" "prod"
    "Autodesk.3dsMax+2019" example_inputs example_outputs JsUndefined []
  = Some (Thrown (Error "3dsMax engine only supports single input file."),
          [CallAuthenticate ["code:all"]])
  /\ ~ exists e : Exn,
         createActivity (scripted example_tokens (@nil (Response nat)) tt) "owner"
           example_host spec_DesignAutomationURI "Render" "Renders a scene" "MaxBundle"
           "prod" "Autodesk.3dsMax+2019" example_inputs example_outputs JsUndefined []
         = Some (Thrown e, []).
Proof.
  split; [reflexivity|].
  intros [e H]. vm_compute in H. discriminate H.
Qed.

(** C3 at work, with an authentication client that answers and with one
    that rejects the request. *)
Lemma create_3dsmax_rejects_inputs_witness :
  createActivity (scripted example_tokens (@nil (Response nat)) tt) "owner" example_host
    spec_DesignAutomationURI "Render" "Renders a scene" "MaxBundle" "prod"
    "Autodesk.3dsMax+2019" example_inputs example_outputs JsUndefined []
  = Some (Thrown (Error "3dsMax engine only supports single input file."),
          [CallAuthenticate ReadScopes])
  /\ createActivity (scripted_unauthorized (@nil (Response nat)) tt) "owner" example_host
       spec_DesignAutomationURI "Render" "Renders a scene" "MaxBundle" "prod"
       "Autodesk.3dsMax+2019" example_inputs example_outputs JsUndefined []
     = Some (Thrown (Error "unauthorized"), [CallAuthenticate ReadScopes]).
Proof.
  split.
  - apply (create_3dsmax_rejects_inputs (scripted example_tokens (@nil (Response nat)) tt)
             "owner" example_host spec_DesignAutomationURI "Render" "Renders a scene"
             "MaxBundle" "prod" "Autodesk.3dsMax+2019" {| uri_name := "3dsMax" |}
             example_inputs example_outputs JsUndefined []);
      [reflexivity | reflexivity | simpl; lia].
  - apply (create_3dsmax_rejects_inputs (scripted_unauthorized (@nil (Response nat)) tt)
             "owner" example_host spec_DesignAutomationURI "Render" "Renders a scene"
             "MaxBundle" "prod" "Autodesk.3dsMax+2019" {| uri_name := "3dsMax" |}
             example_inputs example_outputs JsUndefined []);
      [reflexivity | reflexivity | simpl; lia].
Defined.

(** ** The identifier field *)

Section IdentifierFacts.

Variables (activityId : JsOpt) (description ownerId bundleName bundleAlias engine : string).
Variables (inputs : list InputDescriptor) (outputs : list OutputDescriptor).
Variable script : JsOpt.

(** Only the Inventor builder tests [activityId] before it sets [id]. *)
Lemma inventor_id :
  cfg_id (_inventorActivityConfig activityId description ownerId bundleName bundleAlias
            engine inputs outputs)
  = if truthy activityId then Some activityId else None.
Proof.
  unfold _inventorActivityConfig. rewrite add_outputs_eq. simpl.
  destruct (truthy activityId); now erewrite add_inputs_id.
Qed.

(** The other three write [id: activityId] in the object literal,
    whatever [activityId] is. *)
Lemma revit_id :
  cfg_id (_revitActivityConfig activityId description ownerId bundleName bundleAlias
            engine inputs outputs)
  = Some activityId.
Proof.
  unfold _revitActivityConfig. rewrite add_outputs_eq. simpl.
  now erewrite add_inputs_id.
Qed.

Lemma autocad_id :
  cfg_id (_autocadActivityConfig activityId description ownerId bundleName bundleAlias
            engine inputs outputs script)
  = Some activityId.
Proof.
  unfold _autocadActivityConfig. rewrite add_outputs_eq.
  destruct (truthy_string script) as [s|]; unfold append_to_line0; simpl.
  - edestruct add_inputs_commandLine_array as [line' ->]; [reflexivity|].
    simpl. now erewrite add_inputs_id.
  - now erewrite add_inputs_id.
Qed.

Lemma max_id (config : ActivityConfig) :
  _3dsmaxActivityConfig activityId description ownerId bundleName bundleAlias engine
    inputs outputs script = Returned config ->
  cfg_id config = Some activityId.
Proof.
  unfold _3dsmaxActivityConfig.
  destruct (1 <? length inputs); [discriminate|]. intros [= <-].
  rewrite add_outputs_eq.
  destruct (truthy_string script), inputs as [|input ?]; simpl;
    try destruct (truthy_string (in_description input)); reflexivity.
Qed.

End IdentifierFacts.

(** C9, the code at a failing input.  [updateActivity] passes [null] for
    the identifier.  For a Revit engine the config it posts nevertheless
    has the field: [id: null].  For an Inventor engine, whose builder
    guards the assignment, the posted config has no [id] at all. *)
Theorem update_posts_null_identifier
  (client_id host id description bundleName bundleAlias : string)
  (inputs : list InputDescriptor) (outputs : list OutputDescriptor) :
  (exists config,
      updateActivity (scripted example_tokens (@nil (Response nat)) tt) client_id host
        spec_DesignAutomationURI id description bundleName bundleAlias
        "Autodesk.Revit+2019" inputs outputs JsUndefined []
      = Some (Returned tt,
              [CallAuthenticate ReadScopes;
               CallPost (host +:+ RootPath +:+ "/activities/" +:+ id +:+ "/versions")
                 (Some config) {[ "Authorization" := "Bearer t0" ]}])
      /\ cfg_id config = Some JsNull)
  /\ (exists config,
        updateActivity (scripted example_tokens (@nil (Response nat)) tt) client_id host
          spec_DesignAutomationURI id description bundleName bundleAlias
          "Autodesk.Inventor+23" inputs outputs JsUndefined []
        = Some (Returned tt,
                [CallAuthenticate ReadScopes;
                 CallPost (host +:+ RootPath +:+ "/activities/" +:+ id +:+ "/versions")
                   (Some config) {[ "Authorization" := "Bearer t0" ]}])
        /\ cfg_id config = None).
Proof.
  split.
  - exists (_revitActivityConfig JsNull description client_id bundleName bundleAlias
              "Autodesk.Revit+2019" inputs outputs).
    split; [reflexivity | apply revit_id].
  - exists (_inventorActivityConfig JsNull description client_id bundleName bundleAlias
              "Autodesk.Inventor+23" inputs outputs).
    split; [reflexivity | apply inventor_id].
Qed.

(** C2, the code at a failing input.  For an engine whose name is none of
    the four, [createActivity] and [updateActivity] do not fail: no
    builder runs, and after authenticating they post a request whose JSON
    body is [undefined] and return what the endpoint answers. *)
Theorem unrecognized_engine_is_posted
  (client_id host id description bundleName bundleAlias : string)
  (inputs : list InputDescriptor) (outputs : list OutputDescriptor) (script : JsOpt) :
  createActivity (scripted example_tokens (@nil (Response nat)) tt) client_id host
    spec_DesignAutomationURI id description bundleName bundleAlias
    "Autodesk.Maya+2020" inputs outputs script []
  = Some (Returned tt,
          [CallAuthenticate ReadScopes;
           CallPost (host +:+ RootPath +:+ "/activities") None
             {[ "Authorization" := "Bearer t0" ]}])
  /\ updateActivity (scripted example_tokens (@nil (Response nat)) tt) client_id host
       spec_DesignAutomationURI id description bundleName bundleAlias
       "Autodesk.Maya+2020" inputs outputs script []
     = Some (Returned tt,
             [CallAuthenticate ReadScopes;
              CallPost (host +:+ RootPath +:+ "/activities/" +:+ id +:+ "/versions") None
                {[ "Authorization" := "Bearer t0" ]}]).
Proof.
  split; reflexivity.
Qed.

(** * The listing operations *)

Section ListingFacts.

Context {Item Body : Type}.
Variable remote : Remote Item Body.
Variable host : string.

Lemma for_await_of_pager (endpoint : string) (scopes : list string) (fuel : nat) :
  forall (st : PagerState Item) (pages : list (list Item)) (tr : Trace),
    for_await_of (_pager remote host endpoint scopes) fuel st pages tr
    = for_await remote host fuel endpoint scopes st pages tr.
Proof.
  induction fuel as [|fuel IH]; intros st pages tr; simpl; [reflexivity|].
  destruct (_pager remote host endpoint scopes st tr) as [[[[[page|] st']|e] tr']|];
    auto.
Qed.

Lemma for_await_of_ext {State : Type}
  (next next' : State -> Async (IteratorResult Item * State)) (fuel : nat) :
  (forall st tr, next st tr = next' st tr) ->
  forall (st : State) (pages : list (list Item)) (tr : Trace),
    for_await_of next fuel st pages tr = for_await_of next' fuel st pages tr.
Proof.
  intros Hext. induction fuel as [|fuel IH]; intros st pages tr; simpl; [reflexivity|].
  rewrite Hext.
  destruct (next' st tr) as [[[[[page|] st']|e] tr']|]; auto.
Qed.

(** The [iterate...] generators add nothing to [_pager]: the same pages,
    the same calls, the same end. *)
Lemma reyield_pager (endpoint : string) (st : PagerState Item) (tr : Trace) :
  reyield remote host endpoint st tr = _pager remote host endpoint ReadScopes st tr.
Proof.
  unfold reyield, bind.
  destruct st as [|headers response|]; simpl.
  - run_calls.
    destruct (auth_reply remote tr ReadScopes); [|reflexivity].
    now destruct (get_reply remote _ _ _).
  - destruct (truthy_string (paginationToken response)); [|reflexivity].
    run_calls.
    destruct (auth_reply remote tr ReadScopes); [|reflexivity].
    now destruct (get_reply remote _ _ _).
  - reflexivity.
Qed.

Lemma collect_reyield (fuel : nat) (endpoint : string) (tr : Trace) :
  _collect remote host fuel endpoint ReadScopes tr
  = concat_pages
      (for_await_of (reyield remote host endpoint) (S fuel) PagerCreated [] tr).
Proof.
  rewrite (for_await_of_ext _ (_pager remote host endpoint ReadScopes))
    by apply reyield_pager.
  rewrite for_await_of_pager.
  unfold _collect. simpl. run_calls.
  destruct (auth_reply remote tr ReadScopes) as [authentication|e]; [|reflexivity].
  destruct (get_reply remote _ _ _) as [response|e]; [|reflexivity].
  simpl. rewrite <- collect_while_for_await. simpl. now rewrite app_nil_r.
Qed.

(** X1.  Each [list...] operation returns what a caller gets who drives
    the [iterate...] generator of the same name to its end and
    concatenates the pages: the same items in the same order after the
    same calls, the same exception when one ends the iteration, and no
    result as long as the generator yields. *)
Theorem list_is_concat_of_iterate (fuel : nat) (name : string) (tr : Trace) :
  listEngines remote host fuel tr
  = concat_pages (for_await_of (iterateEngines remote host) (S fuel) PagerCreated [] tr)
  /\ listAppBundles remote host fuel tr
     = concat_pages
         (for_await_of (iterateAppBundles remote host) (S fuel) PagerCreated [] tr)
  /\ listAppBundleAliases remote host fuel name tr
     = concat_pages
         (for_await_of (iterateAppBundleAliases remote host name) (S fuel)
            PagerCreated [] tr)
  /\ listAppBundleVersions remote host fuel name tr
     = concat_pages
         (for_await_of (iterateAppBundleVersions remote host name) (S fuel)
            PagerCreated [] tr)
  /\ listActivities remote host fuel tr
     = concat_pages
         (for_await_of (iterateActivities remote host) (S fuel) PagerCreated [] tr)
  /\ listActivityAliases remote host fuel name tr
     = concat_pages
         (for_await_of (iterateActivityAliases remote host name) (S fuel)
            PagerCreated [] tr)
  /\ listActivityVersions remote host fuel name tr
     = concat_pages
         (for_await_of (iterateActivityVersions remote host name) (S fuel)
            PagerCreated [] tr).
Proof.
  repeat split; apply collect_reyield.
Qed.

Variable endpoint : string.
Variable scopes : list string.

Lemma pagination_call_round_trip (url : string) (headers : Headers) :
  url = host +:+ RootPath +:+ endpoint
  \/ (exists token, url = next_page_url host endpoint token) ->
  Forall (pagination_call host endpoint scopes)
    [CallAuthenticate scopes; CallGet url headers].
Proof.
  intros Hurl.
  constructor; [reflexivity|]. constructor; [exact Hurl | constructor].
Qed.

(** What the loop of [_collect] adds to the history. *)
Lemma collect_while_calls (fuel : nat) :
  forall (headers : Headers) (response : Response Item) (results : list Item)
         (tr tr' : Trace) (o : Outcome (list Item)),
    collect_while remote host fuel endpoint scopes headers response results tr
    = Some (o, tr') ->
    exists new,
      tr' = tr ++ new
      /\ Forall (pagination_call host endpoint scopes) new
      /\ match o with
         | Returned _ => count_authenticates new = count_gets new
         | Thrown _ =>
             count_authenticates new = count_gets new
             \/ count_authenticates new = S (count_gets new)
         end.
Proof.
  induction fuel as [|fuel IH]; intros headers response results tr tr' o; simpl.
  - discriminate.
  - destruct (truthy_string (paginationToken response)) as [token|].
    + run_calls.
      destruct (auth_reply remote tr scopes) as [authentication|e].
      * destruct (get_reply remote _ _ _) as [response'|e].
        -- intros H. apply IH in H as (new & -> & Hcalls & Hcount).
           eexists (_ :: _ :: new). split; [now rewrite <- !app_assoc|].
           split.
           ++ apply (Forall_app_2 _ [_; _]); [|exact Hcalls].
              apply pagination_call_round_trip. right. now exists token.
           ++ simpl. destruct o; lia.
        -- intros [= <- <-]. eexists [_; _]. split; [now rewrite <- app_assoc|].
           split; [|now left].
           apply pagination_call_round_trip. right. now exists token.
      * intros [= <- <-]. eexists. split; [reflexivity|].
        split; [now repeat constructor | now right].
    + intros [= <- <-]. exists []. rewrite app_nil_r. repeat split. constructor.
Qed.

(** X2.  Whatever the remote answers, the calls a settled [_collect] has
    made are calls of this listing and no other: an [authenticate] with
    the scopes it was given, or a [get] of its endpoint, with or without a
    [page] parameter; it never posts.  When it returns, it has made as
    many [authenticate] calls as [get] requests, at least one of each;
    when it throws, it has made one [authenticate] per [get] and at most
    one more. *)
Theorem collect_calls (fuel : nat) (tr tr' : Trace) (o : Outcome (list Item)) :
  _collect remote host fuel endpoint scopes tr = Some (o, tr') ->
  exists new,
    tr' = tr ++ new
    /\ Forall (pagination_call host endpoint scopes) new
    /\ match o with
       | Returned _ =>
           1 <= count_gets new /\ count_authenticates new = count_gets new
       | Thrown _ =>
           count_authenticates new = count_gets new
           \/ count_authenticates new = S (count_gets new)
       end.
Proof.
  unfold _collect. run_calls.
  destruct (auth_reply remote tr scopes) as [authentication|e].
  - destruct (get_reply remote _ _ _) as [response|e].
    + intros H. apply collect_while_calls in H as (new & -> & Hcalls & Hcount).
      eexists (_ :: _ :: new). split; [now rewrite <- !app_assoc|].
      split.
      * apply (Forall_app_2 _ [_; _]); [|exact Hcalls].
        apply pagination_call_round_trip. now left.
      * simpl. destruct o; lia.
    + intros [= <- <-]. eexists [_; _]. split; [now rewrite <- app_assoc|].
      split; [|now left].
      apply pagination_call_round_trip. now left.
  - intros [= <- <-]. eexists. split; [reflexivity|].
    split; [repeat constructor | now right].
Qed.

End ListingFacts.

(** X2 at work: the run over the three linked pages. *)
Lemma collect_calls_witness :
  exists new,
    round_trips example_tokens example_host "/engines" ReadScopes 0
      (example_host +:+ RootPath +:+ "/engines") linked_responses
    = [] ++ new
    /\ Forall (pagination_call example_host "/engines" ReadScopes) new
    /\ 1 <= count_gets new /\ count_authenticates new = count_gets new.
Proof.
  apply (collect_calls (scripted example_tokens linked_responses tt) example_host
           "/engines" ReadScopes 3 [] _ (Returned [1; 2; 3; 4; 5])).
  vm_compute. reflexivity.
Defined.

Section GeneratorFacts.

Context {Item Body : Type}.
Variable remote : Remote Item Body.
Variable host : string.
Variable endpoint : string.
Variable scopes : list string.

(** One [next()] makes no call, or one [authenticate], or one
    [authenticate] and one [get]; only the last can yield a page. *)
Lemma pager_next_calls (st : PagerState Item) (tr : Trace) :
  exists (o : Outcome (IteratorResult Item * PagerState Item)) (new : Trace),
    _pager remote host endpoint scopes st tr = Some (o, tr ++ new)
    /\ Forall (pagination_call host endpoint scopes) new
    /\ count_gets new <= 1
    /\ match o with
       | Returned (IterValue _, _) => count_gets new = 1
       | _ => True
       end.
Proof.
  destruct st as [|headers response|]; simpl.
  - run_calls.
    destruct (auth_reply remote tr scopes) as [authentication|e].
    + destruct (get_reply remote _ _ _) as [response|e];
        eexists _, [_; _]; (split; [now rewrite <- app_assoc|]);
        (split; [apply pagination_call_round_trip; now left | simpl; auto]).
    + eexists _, [_]. split; [reflexivity|].
      split; [now repeat constructor | simpl; auto].
  - destruct (truthy_string (paginationToken response)) as [token|].
    + run_calls.
      destruct (auth_reply remote tr scopes) as [authentication|e].
      * destruct (get_reply remote _ _ _) as [response'|e];
          eexists _, [_; _]; (split; [now rewrite <- app_assoc|]);
          (split; [apply pagination_call_round_trip; right; now exists token
                  | simpl; auto]).
      * eexists _, [_]. split; [reflexivity|].
        split; [now repeat constructor | simpl; auto].
    + eexists _, []. rewrite app_nil_r. split; [reflexivity|].
      split; [constructor | simpl; auto].
  - eexists _, []. rewrite app_nil_r. split; [reflexivity|].
    split; [constructor | simpl; auto].
Qed.

(** X3.  The generator never reads ahead.  After any [n] calls of
    [next()], from any state it may be in, it has made at most [n] [get]
    requests, all of them for this listing, and it has made one for every
    page it yielded: a caller who stops after the first page has caused
    one request, whether or not that page announced another. *)
Theorem pager_never_reads_ahead (n : nat) :
  forall (st : PagerState Item) (tr : Trace),
  exists new,
    snd (pager_nexts remote host endpoint scopes n st tr) = tr ++ new
    /\ Forall (pagination_call host endpoint scopes) new
    /\ length (fst (pager_nexts remote host endpoint scopes n st tr)) = n
    /\ length (yielded (fst (pager_nexts remote host endpoint scopes n st tr)))
       <= count_gets new
    /\ count_gets new <= n.
Proof.
  induction n as [|n IH]; intros st tr; simpl.
  - exists []. rewrite app_nil_r. repeat split; auto.
  - destruct (pager_next_calls st tr) as (o & step & -> & Hstep & Hone & Hpage).
    destruct o as [[result st']|e].
    + destruct (IH st' (tr ++ step)) as (new & Htr & Hnew & Hlen & Hyield & Hgets).
      destruct (pager_nexts remote host endpoint scopes n st' (tr ++ step))
        as [results tr''].
      simpl in *. subst tr''. exists (step ++ new).
      rewrite <- app_assoc, count_gets_app.
      split; [reflexivity|]. split; [now apply Forall_app_2|].
      split; [now rewrite Hlen|].
      destruct result; simpl; lia.
    + destruct (IH PagerCompleted (tr ++ step))
        as (new & Htr & Hnew & Hlen & Hyield & Hgets).
      destruct (pager_nexts remote host endpoint scopes n PagerCompleted (tr ++ step))
        as [results tr''].
      simpl in *. subst tr''. exists (step ++ new).
      rewrite <- app_assoc, count_gets_app.
      split; [reflexivity|]. split; [now apply Forall_app_2|].
      split; [now rewrite Hlen|]. lia.
Qed.

Lemma truthy_truthy_string (v : JsOpt) :
  truthy v = true -> exists token, truthy_string v = Some token.
Proof.
  destruct v as [| |s]; simpl; try discriminate.
  destruct (String.eqb s EmptyString); [discriminate | eauto].
Qed.

(** X4.  Nothing bounds the number of pages.  Against a remote that
    answers every [authenticate] and every [get], each page carrying a
    truthy token, [_collect] neither returns nor throws, however much
    fuel its loop is given, and a [for await] over [_pager] never
    finishes either. *)
Theorem collect_never_ends_on_endless_tokens :
  (forall tr scopes', exists authentication,
      auth_reply remote tr scopes' = Returned authentication) ->
  (forall tr url headers, exists response,
      get_reply remote tr url headers = Returned response
      /\ truthy (paginationToken response) = true) ->
  forall (fuel : nat) (tr : Trace),
    _collect remote host fuel endpoint scopes tr = None
    /\ for_await remote host fuel endpoint scopes PagerCreated [] tr = None.
Proof.
  intros Hauth Hget.
  assert (forall fuel headers response results tr,
             truthy (paginationToken response) = true ->
             collect_while remote host fuel endpoint scopes headers response results tr
             = None) as Hloop.
  { induction fuel as [|fuel IH]; intros headers response results tr Htoken; simpl;
      [reflexivity|].
    destruct (truthy_truthy_string _ Htoken) as [token ->].
    run_calls.
    destruct (Hauth tr scopes) as [authentication ->].
    destruct (Hget (tr ++ [CallAuthenticate scopes])
                (host +:+ RootPath +:+ endpoint +:+ "?page=" +:+ token)
                (<["Authorization" := bearer authentication]> headers))
      as (response' & -> & Htoken').
    now apply IH. }
  intros fuel tr.
  assert (_collect remote host fuel endpoint scopes tr = None) as Hcollect.
  { unfold _collect. run_calls.
    destruct (Hauth tr scopes) as [authentication ->].
    destruct (Hget (tr ++ [CallAuthenticate scopes]) (host +:+ RootPath +:+ endpoint)
                {["Authorization" := bearer authentication]})
      as (response & -> & Htoken).
    now apply Hloop. }
  split; [exact Hcollect|].
  destruct fuel as [|fuel]; [reflexivity|].
  simpl. run_calls.
  destruct (Hauth tr scopes) as [authentication ->].
  destruct (Hget (tr ++ [CallAuthenticate scopes]) (host +:+ RootPath +:+ endpoint)
              {["Authorization" := bearer authentication]})
    as (response & -> & Htoken).
  simpl.
  specialize (Hloop fuel {["Authorization" := bearer authentication]} response
                (concat [data response])
                ((tr ++ [CallAuthenticate scopes])
                   ++ [CallGet (host +:+ RootPath +:+ endpoint)
                         {["Authorization" := bearer authentication]}]) Htoken).
  rewrite collect_while_for_await in Hloop.
  destruct (for_await remote host fuel endpoint scopes _ _ _) as [[[pages [e|]] tr']|];
    [discriminate | discriminate | reflexivity].
Qed.

End GeneratorFacts.

(** X4 at work. *)
Lemma collect_never_ends_on_endless_tokens_witness :
  _collect endless_remote example_host 1000 "/engines" ReadScopes [] = None
  /\ for_await endless_remote example_host 1000 "/engines" ReadScopes PagerCreated [] []
     = None.
Proof.
  apply (fun Hauth Hget =>
           collect_never_ends_on_endless_tokens endless_remote example_host "/engines"
             ReadScopes Hauth Hget 1000 []).
  - intros tr scopes'. eexists. reflexivity.
  - intros tr url headers. eexists. split; reflexivity.
Defined.

(** * The builders in closed form *)

Section ClosedForms.

Variables (activityId : JsOpt) (description ownerId bundleName bundleAlias engine : string).
Variables (inputs : list InputDescriptor) (outputs : list OutputDescriptor).
Variable script : JsOpt.

Lemma append_empty_r (s : string) : s +:+ EmptyString = s.
Proof.
  induction s as [|c s IH]; [reflexivity|].
  change (String c (s +:+ EmptyString) = String c s). now rewrite IH.
Qed.

(** The input block on a config whose command line is one string. *)
Lemma add_inputs_closed (config : ActivityConfig) (line : string) :
  cfg_commandLine config = CmdArray [line] ->
  add_inputs inputs config
  = set_parameters
      (fold_left
         (fun m input => assign_property (in_name input) (param_of_input input) m)
         inputs (cfg_parameters config))
      (set_commandLine (CmdArray [join_tokens (line :: input_tokens inputs)]) config).
Proof.
  intros Hline. destruct inputs as [|input inputs'] eqn:Hinputs.
  - unfold add_inputs. simpl. destruct config. simpl in *. now subst.
  - now rewrite (add_inputs_eq _ _ line).
Qed.

Lemma revit_closed :
  _revitActivityConfig activityId description ownerId bundleName bundleAlias engine
    inputs outputs
  = {| cfg_id := Some activityId;
       cfg_commandLine :=
         CmdArray [join_tokens (revit_base bundleName :: input_tokens inputs)];
       cfg_parameters := registered inputs outputs;
       cfg_description := description;
       cfg_engine := engine;
       cfg_appbundles := [appbundle_reference ownerId bundleName bundleAlias];
       cfg_settings := None |}.
Proof.
  unfold _revitActivityConfig. rewrite add_outputs_eq.
  now rewrite (add_inputs_closed _ (revit_base bundleName)).
Qed.

Lemma inventor_closed :
  _inventorActivityConfig activityId description ownerId bundleName bundleAlias engine
    inputs outputs
  = {| cfg_id := if truthy activityId then Some activityId else None;
       cfg_commandLine :=
         CmdArray [join_tokens (inventor_base bundleName :: input_tokens inputs)];
       cfg_parameters := registered inputs outputs;
       cfg_description := description;
       cfg_engine := engine;
       cfg_appbundles := [appbundle_reference ownerId bundleName bundleAlias];
       cfg_settings := None |}.
Proof.
  unfold _inventorActivityConfig. rewrite add_outputs_eq.
  destruct (truthy activityId);
    now rewrite (add_inputs_closed _ (inventor_base bundleName)).
Qed.

Lemma autocad_closed :
  _autocadActivityConfig activityId description ownerId bundleName bundleAlias engine
    inputs outputs script
  = {| cfg_id := Some activityId;
       cfg_commandLine :=
         CmdArray [join_tokens (autocad_base bundleName
                                  :: input_tokens inputs ++ script_switch script)];
       cfg_parameters := registered inputs outputs;
       cfg_description := description;
       cfg_engine := engine;
       cfg_appbundles := [appbundle_reference ownerId bundleName bundleAlias];
       cfg_settings := settings_of script |}.
Proof.
  unfold _autocadActivityConfig, script_switch, settings_of.
  rewrite add_outputs_eq.
  rewrite (add_inputs_closed _ (autocad_base bundleName)) by reflexivity.
  destruct (truthy_string script) as [s|].
  - unfold append_to_line0, set_settings, set_parameters, set_commandLine, registered.
    simpl. do 3 f_equal.
    symmetry.
    exact (join_tokens_switch (input_tokens inputs) (autocad_base bundleName)
             "/s" "$(settings[script].path)").
  - now rewrite app_nil_r.
Qed.

Lemma max_closed :
  length inputs <= 1 ->
  _3dsmaxActivityConfig activityId description ownerId bundleName bundleAlias engine
    inputs outputs script
  = Returned
      {| cfg_id := Some activityId;
         cfg_commandLine :=
           CmdString (max_base +:+ scene_file inputs +:+ script_file script);
         cfg_parameters := registered inputs outputs;
         cfg_description := description;
         cfg_engine := engine;
         cfg_appbundles := [appbundle_reference ownerId bundleName bundleAlias];
         cfg_settings := settings_of script |}.
Proof.
  intros Hlen. unfold _3dsmaxActivityConfig, script_file, settings_of, registered.
  destruct inputs as [|input [|input' inputs']]; simpl in *; [| |lia].
  - rewrite add_outputs_eq.
    destruct (truthy_string script); unfold append_to_line; simpl;
      [reflexivity | now rewrite append_empty_r].
  - rewrite add_outputs_eq.
    unfold set_parameter_description, param_of_input, placeholder.
    destruct (truthy_string script), (truthy_string (in_description input));
      unfold append_to_line; simpl; rewrite ?update_assign_property, ?append_empty_r;
      unfold set_settings, set_parameters, set_commandLine; simpl;
      rewrite ?append_assoc; reflexivity.
Qed.

End ClosedForms.

(** * What every built config has *)

Section ConfigFacts.

Variable client_id : string.
Variables (name : string) (activityId : JsOpt).
Variables (description bundleName bundleAlias engine : string).
Variables (inputs : list InputDescriptor) (outputs : list OutputDescriptor).
Variable script : JsOpt.
Variable config : ActivityConfig.

(** The config of the switch, by the builder that made it. *)
Lemma select_config_closed :
  select_config client_id name activityId description bundleName bundleAlias engine
    inputs outputs script = Returned (Some config) ->
  (name = "AutoCAD"
   /\ config = _autocadActivityConfig activityId description client_id bundleName
                 bundleAlias engine inputs outputs script)
  \/ (name = "3dsMax" /\ length inputs <= 1
      /\ Returned config
         = _3dsmaxActivityConfig activityId description client_id bundleName
             bundleAlias engine inputs outputs script)
  \/ (name = "Revit"
      /\ config = _revitActivityConfig activityId description client_id bundleName
                    bundleAlias engine inputs outputs)
  \/ (name = "Inventor"
      /\ config = _inventorActivityConfig activityId description client_id bundleName
                    bundleAlias engine inputs outputs).
Proof.
  intros Hconfig.
  destruct (select_config_cases _ _ _ _ _ _ _ _ _ _ _ Hconfig)
    as [H|[[Hname H]|[H|H]]]; auto.
  right. left. split; [exact Hname|].
  destruct (le_lt_dec (length inputs) 1) as [Hlen|Hlen]; [auto|].
  rewrite max_throws in H by assumption. discriminate H.
Qed.

(** X5.  Whichever builder runs and whatever the inputs, outputs and
    script are, the config it returns carries the description and the
    engine identifier it was given, unchanged, and exactly one app-bundle
    reference, [<client id>.<bundle name>+<bundle alias>]. *)
Theorem config_keeps_what_it_was_seeded_with :
  select_config client_id name activityId description bundleName bundleAlias engine
    inputs outputs script = Returned (Some config) ->
  cfg_description config = description
  /\ cfg_engine config = engine
  /\ cfg_appbundles config = [client_id +:+ "." +:+ bundleName +:+ "+" +:+ bundleAlias].
Proof.
  intros Hconfig.
  destruct (select_config_closed Hconfig) as [[_ ->]|[(_ & Hlen & H)|[[_ ->]|[_ ->]]]].
  - now rewrite autocad_closed.
  - rewrite max_closed in H by assumption. now injection H as ->.
  - now rewrite revit_closed.
  - now rewrite inventor_closed.
Qed.

(** X6.  Only the AutoCAD and the 3dsMax builders look at the script: a
    config of theirs has a [settings] block exactly when the script is a
    non-empty string, and the block holds that script.  A config of the
    Revit or of the Inventor builder never has a [settings] block,
    whatever script the caller passed. *)
Theorem settings_only_where_scripts_run :
  select_config client_id name activityId description bundleName bundleAlias engine
    inputs outputs script = Returned (Some config) ->
  cfg_settings config
  = if String.eqb name "AutoCAD" || String.eqb name "3dsMax"
    then match script with
         | JsString s =>
             if String.eqb s EmptyString then None else Some {| settings_script := s |}
         | JsUndefined | JsNull => None
         end
    else None.
Proof.
  intros Hconfig.
  destruct (select_config_closed Hconfig)
    as [[-> ->]|[(-> & Hlen & H)|[[-> ->]|[-> ->]]]]; simpl.
  - rewrite autocad_closed. simpl. unfold settings_of.
    destruct script as [| |s]; simpl; try reflexivity.
    now destruct (String.eqb s EmptyString).
  - rewrite max_closed in H by assumption. injection H as ->. simpl.
    unfold settings_of.
    destruct script as [| |s]; simpl; try reflexivity.
    now destruct (String.eqb s EmptyString).
  - now rewrite revit_closed.
  - now rewrite inventor_closed.
Qed.

(** X7.  The keys of the parameter mapping are the names of the inputs
    and of the outputs, whether or not the names repeat, but for the name
    [__proto__], which is never a key.  An entry whose name is the name of
    an output is a [put] entry, the descriptor of an output of that name;
    any other entry is a [get] entry, the descriptor of an input of its
    name. *)
Theorem parameters_keys_and_verbs :
  select_config client_id name activityId description bundleName bundleAlias engine
    inputs outputs script = Returned (Some config) ->
  dom (cfg_parameters config)
  = list_to_set ((in_name <$> inputs) ++ (out_name <$> outputs)) ∖ {["__proto__"]}
  /\ forall (key : string) (entry : ParameterDescriptor),
       cfg_parameters config !! key = Some entry ->
       key <> "__proto__"
       /\ ((exists output,
               output ∈ outputs /\ out_name output = key
               /\ entry = param_of_output output /\ verb entry = "put")
           \/ ((key ∉ out_name <$> outputs)
               /\ exists input,
                   input ∈ inputs /\ in_name input = key
                   /\ entry = param_of_input input /\ verb entry = "get")).
Proof.
  intros Hconfig.
  rewrite (select_config_parameters _ _ _ _ _ _ _ _ _ _ _ Hconfig).
  split; [apply registered_dom|].
  intros key entry H.
  assert (Hown : key <> "__proto__").
  { intros ->. rewrite registered_proto in H. discriminate H. }
  split; [exact Hown|]. unfold registered in H.
  apply assign_lookup_Some in H as [(output & Hin & Hkey & ->)|[Hnotin H]]; [| |exact Hown].
  - left. exists output. auto.
  - right. split; [exact Hnotin|].
    apply assign_lookup_Some in H as [(input & Hin & Hkey & ->)|[_ H]]; [| |exact Hown].
    + exists input. auto.
    + rewrite lookup_empty in H. discriminate H.
Qed.

End ConfigFacts.

Section CommandLineFacts.

Variables (activityId : JsOpt) (description ownerId bundleName bundleAlias engine : string).
Variables (inputs : list InputDescriptor) (outputs : list OutputDescriptor).
Variable script : JsOpt.

(** X8.  Without inputs the input switch is left out: the command line of
    the Revit and of the Inventor builder is the base invocation alone,
    as the one string of the array, and the one of the AutoCAD builder is
    the base invocation followed only by the script switch, when a
    non-empty script is given. *)
Theorem no_inputs_no_input_switch :
  cfg_commandLine (_autocadActivityConfig activityId description ownerId bundleName
                     bundleAlias engine [] outputs script)
  = CmdArray [join_tokens (autocad_base bundleName :: script_switch script)]
  /\ cfg_commandLine (_revitActivityConfig activityId description ownerId bundleName
                        bundleAlias engine [] outputs)
     = CmdArray [revit_base bundleName]
  /\ cfg_commandLine (_inventorActivityConfig activityId description ownerId bundleName
                        bundleAlias engine [] outputs)
     = CmdArray [inventor_base bundleName].
Proof.
  now rewrite autocad_closed, revit_closed, inventor_closed.
Qed.

(** X9.  The 3dsMax builder returns a config when it is given no input or
    one, and throws when it is given more.  The command line of the
    config is a single string: the executable, then for the one input the
    switch [-sceneFile] and the placeholder of the input between double
    quotes, then for a non-empty script its placeholder between double
    quotes; a part that does not apply is left out. *)
Theorem max_builder_outcome :
  (length inputs <= 1 ->
   exists config,
     _3dsmaxActivityConfig activityId description ownerId bundleName bundleAlias engine
       inputs outputs script = Returned config
     /\ cfg_commandLine config
        = CmdString
            ("$(engine.path)\3dsmaxbatch.exe"
               +:+ match inputs with
                   | input :: _ =>
                       " -sceneFile " +:+ dquote
                         +:+ ("$(args[" +:+ in_name input +:+ "].path)") +:+ dquote
                   | [] => EmptyString
                   end
               +:+ match script with
                   | JsString s =>
                       if String.eqb s EmptyString then EmptyString
                       else " " +:+ dquote +:+ "$(settings[script].path)" +:+ dquote
                   | JsUndefined | JsNull => EmptyString
                   end))
  /\ (1 < length inputs ->
      _3dsmaxActivityConfig activityId description ownerId bundleName bundleAlias engine
        inputs outputs script
      = Thrown (Error "3dsMax engine only supports single input file.")).
Proof.
  split; [|apply max_throws].
  intros Hlen. eexists. split; [now apply max_closed|].
  simpl. unfold max_base, scene_file, script_file, placeholder, truthy_string.
  destruct script; try reflexivity.
  now destruct (String.eqb _ EmptyString).
Qed.

End CommandLineFacts.

Section CreateAndUpdate.

Context {Item Body : Type}.
Variable remote : Remote Item Body.
Variable client_id : string.
Variable host : string.
Variable new_DesignAutomationURI : string -> Outcome DesignAutomationURI.

Variables (id description bundleName bundleAlias engine : string).
Variables (inputs : list InputDescriptor) (outputs : list OutputDescriptor).
Variable script : JsOpt.

(** X10.  The config [updateActivity] builds differs from the one
    [createActivity] builds for the same arguments in its [id] only:
    whenever the switch returns a config for the identifier, it returns
    one for [null] too, with the same command line, parameters,
    description, engine, app-bundle reference and settings. *)
Theorem update_config_differs_in_id_only (name : string) (created : ActivityConfig) :
  select_config client_id name (JsString id) description bundleName bundleAlias engine
    inputs outputs script = Returned (Some created) ->
  exists updated,
    select_config client_id name JsNull description bundleName bundleAlias engine
      inputs outputs script = Returned (Some updated)
    /\ cfg_commandLine updated = cfg_commandLine created
    /\ cfg_parameters updated = cfg_parameters created
    /\ cfg_description updated = cfg_description created
    /\ cfg_engine updated = cfg_engine created
    /\ cfg_appbundles updated = cfg_appbundles created
    /\ cfg_settings updated = cfg_settings created.
Proof.
  intros H.
  destruct (select_config_closed _ _ _ _ _ _ _ _ _ _ _ H)
    as [[-> ->]|[(-> & Hlen & Hmax)|[[-> ->]|[-> ->]]]];
    unfold select_config; simpl.
  - eexists. split; [reflexivity|]. now rewrite !autocad_closed.
  - rewrite max_closed in Hmax by assumption. injection Hmax as ->.
    rewrite max_closed by assumption. eexists. split; [reflexivity|]. now simpl.
  - eexists. split; [reflexivity|]. now rewrite !revit_closed.
  - eexists. split; [reflexivity|]. now rewrite !inventor_closed.
Qed.

(** X11.  [createActivity] and [updateActivity] always settle, and what
    they do is decided by three answers in turn.  The first call is an
    [authenticate] with the scope [code:all].  When it fails, or the
    engine identifier does not parse, or the builder throws, that error
    is the result and the [authenticate] is the only call made.  When all
    three succeed, exactly one more call follows: a [post] under the
    bearer token to [/activities] (to [/activities/<id>/versions] for an
    update) of what the switch left in [config], and its answer is the
    result.  No other call is made, so never a [get]. *)
Theorem submit_activity_calls (tr : Trace) :
  ((forall e,
      auth_reply remote tr ReadScopes = Thrown e ->
      createActivity remote client_id host new_DesignAutomationURI id description
        bundleName bundleAlias engine inputs outputs script tr
      = Some (Thrown e, tr ++ [CallAuthenticate ReadScopes]))
   /\ (forall authentication e,
         auth_reply remote tr ReadScopes = Returned authentication ->
         new_DesignAutomationURI engine = Thrown e ->
         createActivity remote client_id host new_DesignAutomationURI id description
           bundleName bundleAlias engine inputs outputs script tr
         = Some (Thrown e, tr ++ [CallAuthenticate ReadScopes]))
   /\ (forall authentication uri e,
         auth_reply remote tr ReadScopes = Returned authentication ->
         new_DesignAutomationURI engine = Returned uri ->
         select_config client_id (uri_name uri) (JsString id) description bundleName
           bundleAlias engine inputs outputs script = Thrown e ->
         createActivity remote client_id host new_DesignAutomationURI id description
           bundleName bundleAlias engine inputs outputs script tr
         = Some (Thrown e, tr ++ [CallAuthenticate ReadScopes]))
   /\ (forall authentication uri json,
         auth_reply remote tr ReadScopes = Returned authentication ->
         new_DesignAutomationURI engine = Returned uri ->
         select_config client_id (uri_name uri) (JsString id) description bundleName
           bundleAlias engine inputs outputs script = Returned json ->
         createActivity remote client_id host new_DesignAutomationURI id description
           bundleName bundleAlias engine inputs outputs script tr
         = Some (post_reply remote (tr ++ [CallAuthenticate ReadScopes])
                   (host +:+ RootPath +:+ "/activities") json
                   {[ "Authorization" := bearer authentication ]},
                 tr ++ [CallAuthenticate ReadScopes;
                        CallPost (host +:+ RootPath +:+ "/activities") json
                          {[ "Authorization" := bearer authentication ]}]))
   /\ (exists (o : Outcome Body) (new : Trace),
         createActivity remote client_id host new_DesignAutomationURI id description
           bundleName bundleAlias engine inputs outputs script tr = Some (o, tr ++ new)
         /\ forall c, c ∈ new ->
              c = CallAuthenticate ReadScopes
              \/ exists json headers,
                   c = CallPost (host +:+ RootPath +:+ "/activities") json headers))
  /\ ((forall e,
         auth_reply remote tr ReadScopes = Thrown e ->
         updateActivity remote client_id host new_DesignAutomationURI id description
           bundleName bundleAlias engine inputs outputs script tr
         = Some (Thrown e, tr ++ [CallAuthenticate ReadScopes]))
      /\ (forall authentication e,
            auth_reply remote tr ReadScopes = Returned authentication ->
            new_DesignAutomationURI engine = Thrown e ->
            updateActivity remote client_id host new_DesignAutomationURI id description
              bundleName bundleAlias engine inputs outputs script tr
            = Some (Thrown e, tr ++ [CallAuthenticate ReadScopes]))
      /\ (forall authentication uri e,
            auth_reply remote tr ReadScopes = Returned authentication ->
            new_DesignAutomationURI engine = Returned uri ->
            select_config client_id (uri_name uri) JsNull description bundleName
              bundleAlias engine inputs outputs script = Thrown e ->
            updateActivity remote client_id host new_DesignAutomationURI id description
              bundleName bundleAlias engine inputs outputs script tr
            = Some (Thrown e, tr ++ [CallAuthenticate ReadScopes]))
      /\ (forall authentication uri json,
            auth_reply remote tr ReadScopes = Returned authentication ->
            new_DesignAutomationURI engine = Returned uri ->
            select_config client_id (uri_name uri) JsNull description bundleName
              bundleAlias engine inputs outputs script = Returned json ->
            updateActivity remote client_id host new_DesignAutomationURI id description
              bundleName bundleAlias engine inputs outputs script tr
            = Some (post_reply remote (tr ++ [CallAuthenticate ReadScopes])
                      (host +:+ RootPath +:+ "/activities/" +:+ id +:+ "/versions") json
                      {[ "Authorization" := bearer authentication ]},
                    tr ++ [CallAuthenticate ReadScopes;
                           CallPost (host +:+ RootPath +:+ "/activities/" +:+ id
                                       +:+ "/versions") json
                             {[ "Authorization" := bearer authentication ]}]))
      /\ (exists (o : Outcome Body) (new : Trace),
            updateActivity remote client_id host new_DesignAutomationURI id description
              bundleName bundleAlias engine inputs outputs script tr = Some (o, tr ++ new)
            /\ forall c, c ∈ new ->
                 c = CallAuthenticate ReadScopes
                 \/ exists json headers,
                      c = CallPost (host +:+ RootPath +:+ "/activities/" +:+ id
                                      +:+ "/versions") json headers)).
Proof.
  split.
  - split; [|split; [|split; [|split]]].
    + intros e Hauth. unfold createActivity. run_calls. now rewrite Hauth.
    + intros authentication e Hauth Huri. unfold createActivity. run_calls.
      now rewrite Hauth, Huri.
    + intros authentication uri e Hauth Huri Hjson. unfold createActivity. run_calls.
      now rewrite Hauth, Huri, Hjson.
    + intros authentication uri json Hauth Huri Hjson. unfold createActivity. run_calls.
      rewrite Hauth, Huri, Hjson. now rewrite <- app_assoc.
    + unfold createActivity. run_calls.
      destruct (auth_reply remote tr ReadScopes) as [authentication|e];
        [|eexists _, [_]; split; [reflexivity | intros c Hc; apply list_elem_of_singleton in Hc; now left]].
      destruct (new_DesignAutomationURI engine) as [uri|e];
        [|eexists _, [_]; split; [reflexivity | intros c Hc; apply list_elem_of_singleton in Hc; now left]].
      destruct (select_config client_id (uri_name uri) (JsString id) description bundleName
                  bundleAlias engine inputs outputs script) as [json|e];
        [|eexists _, [_]; split; [reflexivity | intros c Hc; apply list_elem_of_singleton in Hc; now left]].
      eexists _, [_; _]. split; [now rewrite <- app_assoc|].
      intros c Hc. apply elem_of_cons in Hc as [->|Hc]; [now left|].
      apply list_elem_of_singleton in Hc as ->. right. eauto.
  - split; [|split; [|split; [|split]]].
    + intros e Hauth. unfold updateActivity. run_calls. now rewrite Hauth.
    + intros authentication e Hauth Huri. unfold updateActivity. run_calls.
      now rewrite Hauth, Huri.
    + intros authentication uri e Hauth Huri Hjson. unfold updateActivity. run_calls.
      now rewrite Hauth, Huri, Hjson.
    + intros authentication uri json Hauth Huri Hjson. unfold updateActivity. run_calls.
      rewrite Hauth, Huri, Hjson. now rewrite <- app_assoc.
    + unfold updateActivity. run_calls.
      destruct (auth_reply remote tr ReadScopes) as [authentication|e];
        [|eexists _, [_]; split; [reflexivity | intros c Hc; apply list_elem_of_singleton in Hc; now left]].
      destruct (new_DesignAutomationURI engine) as [uri|e];
        [|eexists _, [_]; split; [reflexivity | intros c Hc; apply list_elem_of_singleton in Hc; now left]].
      destruct (select_config client_id (uri_name uri) JsNull description bundleName
                  bundleAlias engine inputs outputs script) as [json|e];
        [|eexists _, [_]; split; [reflexivity | intros c Hc; apply list_elem_of_singleton in Hc; now left]].
      eexists _, [_; _]. split; [now rewrite <- app_assoc|].
      intros c Hc. apply elem_of_cons in Hc as [->|Hc]; [now left|].
      apply list_elem_of_singleton in Hc as ->. right. eauto.
Qed.

End CreateAndUpdate.

(** * Work items *)

Section WorkItemFacts.

Context {Body : Type}.
Variable remote : WorkItemRemote Body.
Variable host : string.
Variable activityId : string.
Variables (inputs : list WorkItemInput) (outputs : list WorkItemOutput).

Lemma add_input_argument_eq (config : WorkItemConfig) (input : WorkItemInput) :
  add_input_argument config input
  = {| wi_activityId := wi_activityId config;
       wi_arguments :=
         assign_property (wi_in_name input) (argument_of_input input)
           (wi_arguments config) |}.
Proof.
  unfold add_input_argument, argument_of_input.
  destruct (truthy_string (wi_in_localName input)); simpl;
    rewrite ?update_assign_property; reflexivity.
Qed.

Lemma add_input_arguments_eq (l : list WorkItemInput) :
  forall config : WorkItemConfig,
    fold_left add_input_argument l config
    = {| wi_activityId := wi_activityId config;
         wi_arguments :=
           fold_left
             (fun m input =>
                assign_property (wi_in_name input) (argument_of_input input) m)
             l (wi_arguments config) |}.
Proof.
  induction l as [|input l IH]; intros config; simpl.
  - now destruct config.
  - now rewrite IH, add_input_argument_eq.
Qed.

Lemma add_output_arguments_eq (l : list WorkItemOutput) :
  forall config : WorkItemConfig,
    fold_left add_output_argument l config
    = {| wi_activityId := wi_activityId config;
         wi_arguments :=
           fold_left
             (fun m output =>
                assign_property (wi_out_name output) (argument_of_output output) m)
             l (wi_arguments config) |}.
Proof.
  induction l as [|output l IH]; intros config; simpl.
  - now destruct config.
  - now rewrite IH.
Qed.

(** X12.  [createWorkItem] authenticates with the scope [code:all] and,
    unless that fails, posts one work item to [/workitems] and returns the
    answer.  The work item names the activity it was given, and the keys
    of its arguments are the names of the inputs and outputs, but for the
    name [__proto__], which is never a key.  An argument under the name of
    an output is that output: verb [put], its URL, never a local name;
    among outputs of one name the last wins.  Any other argument is an
    input of its name: its URL, its local name when it has a non-empty
    one, never a verb.  So an input that shares its name with an output
    is not sent, and neither is an input or output named [__proto__]. *)
Theorem work_item_arguments (tr : list WorkItemCall) :
  exists config : WorkItemConfig,
    createWorkItem remote host activityId inputs outputs tr
    = match wi_auth_reply remote tr ReadScopes with
      | Thrown e => (Thrown e, tr ++ [WorkItemAuthenticate ReadScopes])
      | Returned authentication =>
          (wi_post_reply remote (tr ++ [WorkItemAuthenticate ReadScopes])
             (host +:+ RootPath +:+ "/workitems") config
             {[ "Authorization" := bearer authentication ]},
           tr ++ [WorkItemAuthenticate ReadScopes;
                  WorkItemPost (host +:+ RootPath +:+ "/workitems") config
                    {[ "Authorization" := bearer authentication ]}])
      end
    /\ wi_activityId config = activityId
    /\ dom (wi_arguments config)
       = list_to_set ((wi_in_name <$> inputs) ++ (wi_out_name <$> outputs))
           ∖ {["__proto__"]}
    /\ (forall before output after,
          outputs = before ++ output :: after ->
          wi_out_name output <> "__proto__" ->
          wi_out_name output ∉ wi_out_name <$> after ->
          wi_arguments config !! wi_out_name output
          = Some {| arg_verb := Some "put";
                    arg_url := wi_out_url output;
                    arg_localName := None |})
    /\ (forall key entry,
          wi_arguments config !! key = Some entry ->
          key <> "__proto__"
          /\ ((exists output,
                  output ∈ outputs /\ wi_out_name output = key
                  /\ entry = {| arg_verb := Some "put";
                                arg_url := wi_out_url output;
                                arg_localName := None |})
              \/ ((key ∉ wi_out_name <$> outputs)
                  /\ exists input,
                      input ∈ inputs /\ wi_in_name input = key
                      /\ entry = {| arg_verb := None;
                                    arg_url := wi_in_url input;
                                    arg_localName :=
                                      truthy_string (wi_in_localName input) |}))).
Proof.
  eexists. split; [|split; [|split; [|split]]].
  - unfold createWorkItem.
    destruct (wi_auth_reply remote tr ReadScopes); [|reflexivity].
    rewrite <- app_assoc. reflexivity.
  - now rewrite add_output_arguments_eq, add_input_arguments_eq.
  - rewrite add_output_arguments_eq, add_input_arguments_eq. simpl.
    rewrite !assign_dom, dom_empty_L, (left_id_L ∅ (∪)), list_to_set_app_L.
    apply set_eq. intros k. set_unfold. tauto.
  - intros before output after -> Hown Hlast.
    rewrite add_output_arguments_eq. simpl.
    now rewrite (assign_last wi_out_name argument_of_output).
  - intros key entry. rewrite add_output_arguments_eq, add_input_arguments_eq. simpl.
    intros H.
    assert (Hown : key <> "__proto__").
    { intros ->.
      rewrite (assign_proto wi_out_name argument_of_output) in H; [discriminate H|].
      apply (assign_proto wi_in_name argument_of_input), lookup_empty. }
    split; [exact Hown|].
    apply assign_lookup_Some in H as [(output & Hin & Hkey & ->)|[Hnotin H]];
      [| |exact Hown].
    + left. exists output. auto.
    + right. split; [exact Hnotin|].
      apply assign_lookup_Some in H as [(input & Hin & Hkey & ->)|[_ H]];
        [| |exact Hown].
      * exists input. auto.
      * rewrite lookup_empty in H. discriminate H.
Qed.

End WorkItemFacts.

(** ** The added facts on concrete inputs *)

(** X5 at work: the Revit builder on the example descriptors. *)
Lemma config_keeps_what_it_was_seeded_with_witness :
  cfg_description
    (_revitActivityConfig JsNull "Plots a drawing" "owner" "PlotBundle" "prod"
       "Autodesk.Revit+2019" example_inputs example_outputs) = "Plots a drawing"
  /\ cfg_engine
       (_revitActivityConfig JsNull "Plots a drawing" "owner" "PlotBundle" "prod"
          "Autodesk.Revit+2019" example_inputs example_outputs) = "Autodesk.Revit+2019"
  /\ cfg_appbundles
       (_revitActivityConfig JsNull "Plots a drawing" "owner" "PlotBundle" "prod"
          "Autodesk.Revit+2019" example_inputs example_outputs)
     = ["owner.PlotBundle+prod"].
Proof.
  apply (config_keeps_what_it_was_seeded_with "owner" "Revit" JsNull "Plots a drawing"
           "PlotBundle" "prod" "Autodesk.Revit+2019" example_inputs example_outputs
           JsUndefined).
  reflexivity.
Defined.

(** X6 at work: the AutoCAD builder keeps a non-empty script. *)
Lemma settings_only_where_scripts_run_witness :
  cfg_settings
    (_autocadActivityConfig (JsString "Plot") "Plots a drawing" "owner" "PlotBundle"
       "prod" "Autodesk.AutoCAD+23" example_inputs example_outputs (JsString "plot.scr"))
  = Some {| settings_script := "plot.scr" |}.
Proof.
  apply (settings_only_where_scripts_run "owner" "AutoCAD" (JsString "Plot")
           "Plots a drawing" "PlotBundle" "prod" "Autodesk.AutoCAD+23" example_inputs
           example_outputs (JsString "plot.scr")).
  reflexivity.
Defined.

(** X7 at work: an input named [__proto__], and an output that takes the
    name of another input. *)
Lemma parameters_keys_and_verbs_witness :
  dom (cfg_parameters
         (_revitActivityConfig JsNull "Plots a drawing" "owner" "PlotBundle" "prod"
            "Autodesk.Revit+2019" (proto_input :: example_inputs) [clashing_output]))
  = list_to_set ((in_name <$> proto_input :: example_inputs)
                   ++ (out_name <$> [clashing_output])) ∖ {["__proto__"]}
  /\ forall (key : string) (entry : ParameterDescriptor),
       cfg_parameters
         (_revitActivityConfig JsNull "Plots a drawing" "owner" "PlotBundle" "prod"
            "Autodesk.Revit+2019" (proto_input :: example_inputs) [clashing_output])
       !! key = Some entry ->
       key <> "__proto__"
       /\ ((exists output,
               output ∈ [clashing_output] /\ out_name output = key
               /\ entry = param_of_output output /\ verb entry = "put")
           \/ ((key ∉ out_name <$> [clashing_output])
               /\ exists input,
                   input ∈ proto_input :: example_inputs /\ in_name input = key
                   /\ entry = param_of_input input /\ verb entry = "get")).
Proof.
  apply (parameters_keys_and_verbs "owner" "Revit" JsNull "Plots a drawing"
           "PlotBundle" "prod" "Autodesk.Revit+2019" (proto_input :: example_inputs)
           [clashing_output] JsUndefined).
  reflexivity.
Defined.

(** The keys of that mapping, written out. *)
Example keys_without_proto :
  dom (cfg_parameters
         (_revitActivityConfig JsNull "Plots a drawing" "owner" "PlotBundle" "prod"
            "Autodesk.Revit+2019" (proto_input :: example_inputs) [clashing_output]))
  = {[ "drawing"; "params" ]}.
Proof. vm_compute. reflexivity. Qed.

(** X10 at work: a 3dsMax activity with one input, created and updated. *)
Lemma update_config_differs_in_id_only_witness :
  exists updated,
    select_config "owner" "3dsMax" JsNull "Renders a scene" "MaxBundle" "prod"
      "Autodesk.3dsMax+2019" [ {| in_name := "scene"; in_description := JsUndefined |} ]
      example_outputs (JsString "render.ms") = Returned (Some updated)
    /\ cfg_commandLine updated
       = CmdString (max_base
                      +:+ scene_file [ {| in_name := "scene";
                                          in_description := JsUndefined |} ]
                      +:+ script_file (JsString "render.ms"))
    /\ cfg_parameters updated
       = registered [ {| in_name := "scene"; in_description := JsUndefined |} ]
           example_outputs
    /\ cfg_description updated = "Renders a scene"
    /\ cfg_engine updated = "Autodesk.3dsMax+2019"
    /\ cfg_appbundles updated = ["owner.MaxBundle+prod"]
    /\ cfg_settings updated = Some {| settings_script := "render.ms" |}.
Proof.
  apply (update_config_differs_in_id_only "owner" "Render" "Renders a scene" "MaxBundle"
           "prod" "Autodesk.3dsMax+2019"
           [ {| in_name := "scene"; in_description := JsUndefined |} ]
           example_outputs (JsString "render.ms") "3dsMax"
           {| cfg_id := Some (JsString "Render");
              cfg_commandLine :=
                CmdString (max_base
                             +:+ scene_file [ {| in_name := "scene";
                                                 in_description := JsUndefined |} ]
                             +:+ script_file (JsString "render.ms"));
              cfg_parameters :=
                registered [ {| in_name := "scene"; in_description := JsUndefined |} ]
                  example_outputs;
              cfg_description := "Renders a scene";
              cfg_engine := "Autodesk.3dsMax+2019";
              cfg_appbundles := ["owner.MaxBundle+prod"];
              cfg_settings := Some {| settings_script := "render.ms" |} |}).
  vm_compute. reflexivity.
Defined.

(** X11 at work: the authentication client answers, the identifier
    parses as a Revit engine and the builder returns, so the config is
    posted and the answer of the endpoint is the result. *)
Lemma submit_activity_calls_witness :
  createActivity (scripted example_tokens (@nil (Response nat)) tt) "owner" example_host
    spec_DesignAutomationURI "Plot" "Plots a drawing" "PlotBundle" "prod"
    "Autodesk.Revit+2019" example_inputs example_outputs JsUndefined []
  = Some (Returned tt,
          [ CallAuthenticate ["code:all"];
            CallPost "https://developer.api.autodesk.com/da/us-east/v3/activities"
              (Some (_revitActivityConfig (JsString "Plot") "Plots a drawing" "owner"
                       "PlotBundle" "prod" "Autodesk.Revit+2019" example_inputs
                       example_outputs))
              {[ "Authorization" := "Bearer t0" ]} ]).
Proof.
  destruct (submit_activity_calls (scripted example_tokens (@nil (Response nat)) tt)
              "owner" example_host spec_DesignAutomationURI "Plot" "Plots a drawing"
              "PlotBundle" "prod" "Autodesk.Revit+2019" example_inputs example_outputs
              JsUndefined [])
    as [(_ & _ & _ & Hposted & _) _].
  apply (Hposted {| access_token := "t0" |} {| uri_name := "Revit" |}); reflexivity.
Defined.

(** A work item whose output takes the name of its first input, and
    with an input named [__proto__]: two arguments are sent, and the one
    named [drawing] is the output. *)
Example work_item_with_a_shared_name :
  match snd (createWorkItem willing_remote example_host "owner.Plot+prod"
               [ {| wi_in_name := "drawing"; wi_in_url := "https://in/drawing.dwg";
                    wi_in_localName := JsString "input.dwg" |};
                 {| wi_in_name := "__proto__"; wi_in_url := "https://in/proto.json";
                    wi_in_localName := JsString "proto.json" |};
                 {| wi_in_name := "params"; wi_in_url := "https://in/params.json";
                    wi_in_localName := JsUndefined |} ]
               [ {| wi_out_name := "drawing"; wi_out_url := "https://out/drawing.pdf" |} ]
               []) with
  | [_; WorkItemPost _ config _] =>
      (wi_arguments config !! "drawing", wi_arguments config !! "params",
       wi_arguments config !! "__proto__", size (wi_arguments config))
  | _ => (None, None, None, 0)
  end
  = (Some {| arg_verb := Some "put";
             arg_url := "https://out/drawing.pdf";
             arg_localName := None |},
     Some {| arg_verb := None;
             arg_url := "https://in/params.json";
             arg_localName := None |},
     None,
     2).
Proof. vm_compute. reflexivity. Qed.
